(** * The paper catalogue browser: filtering, facets, pagination, formulas

    A shallow embedding of the script of the catalogue page (the later of
    the two versions of the Vue component, the one with pagination) and
    the properties of its derived views.

    - JavaScript strings are modelled as [string], a sequence of code
      units; the code units of the model are the 256 values of [ascii].
      What the language defines on code units ([split], [includes],
      [startsWith], [charAt], [slice]) is defined here.
    - What the host takes from the Unicode tables and from its collation
      ([toLowerCase], [toUpperCase], [trim], [localeCompare], the letter
      case of the regexp flag [i]) is not defined: these operations are
      the fields of the class [Host], and a property holds for every
      host.  Where a property needs something of the host, it is a
      hypothesis of the property.  The examples are evaluated with one
      host, [latin1_host].
    - Array lengths, page numbers, counts and years are integers ([Z]).
    - The module-level refs are the fields of one record [State]; a
      handler is a function on it.  The sets of tags are finite sets, the
      set of suggestions and the map of tag counts keep the order of
      insertion.
    - The framework, the renderer of formulas and [fetch] are not part of
      the script: the effect registered with [watchEffect] is run after a
      handler when one of the refs it read was written, the renderer and
      [fetch] are parameters. *)

From Stdlib Require Import ZArith Ascii String Lia.
From stdpp Require Import base tactics option list strings gmap sorting.

Local Open Scope Z_scope.
#[local] Set Warnings "-clear-no-such-hyp".

(** ** Strings *)

Module JSString.

Definition is_empty (s : string) : bool :=
  match s with EmptyString => true | String _ _ => false end.

(** [s.startsWith(q)] *)
Fixpoint startsWith (s q : string) {struct q} : bool :=
  match q, s with
  | EmptyString, _ => true
  | String _ _, EmptyString => false
  | String a q', String b s' => if Ascii.eqb a b then startsWith s' q' else false
  end.

(** [s.includes(q)]: [q] occurs in [s] at some position. *)
Fixpoint includes (s q : string) : bool :=
  startsWith s q ||
  match s with
  | EmptyString => false
  | String _ s' => includes s' q
  end.

(** [s.split(sep)] for a separator of one code unit: never the empty
    list; the empty string splits into one empty piece. *)
Fixpoint split (sep : ascii) (s : string) : list string :=
  match s with
  | EmptyString => [EmptyString]
  | String c s' =>
      if Ascii.eqb c sep then EmptyString :: split sep s'
      else match split sep s' with
           | piece :: rest => String c piece :: rest
           | [] => [String c EmptyString]
           end
  end.

(** [q] occurs in [s]. *)
Definition is_substring (q s : string) : Prop :=
  ∃ pre post, s = pre +:+ q +:+ post.

(** The code unit [c] occurs in [s]. *)
Fixpoint has_unit (c : ascii) (s : string) : bool :=
  match s with
  | EmptyString => false
  | String c' s' => Ascii.eqb c c' || has_unit c s'
  end.

End JSString.
Import JSString.

(** ** The host *)

(** The string operations that the script calls and that the language
    leaves to the Unicode tables and to the locale of the host:
    [String.prototype.toLowerCase], [toUpperCase], [trim] and
    [localeCompare], and the canonical form of a code unit under the
    regexp flag [i] (the code unit that two units must share to match). *)
Class Host := {
  toLowerCase : string → string;
  toUpperCase : string → string;
  trim : string → string;
  localeCompare : string → string → Z;
  canonicalize : ascii → N
}.

(** ** Data model *)

(** [interface Paper]; the field [abstract] is called [abstract_text]. *)
Record Paper := mkPaper {
  venue : string;
  year : Z;
  title : string;
  title_en : string;
  abstract_text : string;
  abstract_en : string;
  keywords : string;
  authors : string;
  github_links : string;
  pdf_download_url : string;
  openreview_forum_url : string;
  venue_id : string
}.

(** The value of the year selector: the string 'all' or a year chosen
    from the list of years of the collection. *)
Inductive YearSelection := YearAll | YearIs (y : Z).

(** [parseInt] on the selected year: a year is an integer, which
    [parseInt] returns as it is. *)
Definition parseInt_year (y : Z) : Z := y.

(** What the page writes to the console. *)
Inductive ConsoleEntry :=
  | ConsoleLog (msg : string) (n : Z)
  | ConsoleError (msg : string) (error : string).

(** The module-level refs of the page that the derived views read and the
    handlers write.  [console] collects what the page sends to
    [console.log] and [console.error]; [alerts] collects the blocking
    notices, each with the page count it prints. *)
Record State := mkState {
  allPapers : list Paper;
  searchQuery : string;
  selectedYear : YearSelection;
  selectedVenue : string;
  selectedTags : gset string;
  excludedTags : gset string;
  showOnlyWithCode : bool;
  currentPage : Z;
  papersPerPage : Z;
  inputPage : string;
  console : list ConsoleEntry;
  alerts : list Z
}.

#[global] Instance YearSelection_eq_dec : EqDecision YearSelection.
Proof. solve_decision. Defined.
#[global] Instance Paper_eq_dec : EqDecision Paper.
Proof. solve_decision. Defined.

Definition set_allPapers (v : list Paper) (s : State) : State :=
  mkState v (searchQuery s) (selectedYear s) (selectedVenue s) (selectedTags s)
    (excludedTags s) (showOnlyWithCode s) (currentPage s) (papersPerPage s)
    (inputPage s) (console s) (alerts s).
Definition set_searchQuery (v : string) (s : State) : State :=
  mkState (allPapers s) v (selectedYear s) (selectedVenue s) (selectedTags s)
    (excludedTags s) (showOnlyWithCode s) (currentPage s) (papersPerPage s)
    (inputPage s) (console s) (alerts s).
Definition set_selectedYear (v : YearSelection) (s : State) : State :=
  mkState (allPapers s) (searchQuery s) v (selectedVenue s) (selectedTags s)
    (excludedTags s) (showOnlyWithCode s) (currentPage s) (papersPerPage s)
    (inputPage s) (console s) (alerts s).
Definition set_selectedVenue (v : string) (s : State) : State :=
  mkState (allPapers s) (searchQuery s) (selectedYear s) v (selectedTags s)
    (excludedTags s) (showOnlyWithCode s) (currentPage s) (papersPerPage s)
    (inputPage s) (console s) (alerts s).
Definition set_selectedTags (v : gset string) (s : State) : State :=
  mkState (allPapers s) (searchQuery s) (selectedYear s) (selectedVenue s) v
    (excludedTags s) (showOnlyWithCode s) (currentPage s) (papersPerPage s)
    (inputPage s) (console s) (alerts s).
Definition set_excludedTags (v : gset string) (s : State) : State :=
  mkState (allPapers s) (searchQuery s) (selectedYear s) (selectedVenue s)
    (selectedTags s) v (showOnlyWithCode s) (currentPage s) (papersPerPage s)
    (inputPage s) (console s) (alerts s).
Definition set_showOnlyWithCode (v : bool) (s : State) : State :=
  mkState (allPapers s) (searchQuery s) (selectedYear s) (selectedVenue s)
    (selectedTags s) (excludedTags s) v (currentPage s) (papersPerPage s)
    (inputPage s) (console s) (alerts s).
Definition set_currentPage (v : Z) (s : State) : State :=
  mkState (allPapers s) (searchQuery s) (selectedYear s) (selectedVenue s)
    (selectedTags s) (excludedTags s) (showOnlyWithCode s) v (papersPerPage s)
    (inputPage s) (console s) (alerts s).
Definition set_papersPerPage (v : Z) (s : State) : State :=
  mkState (allPapers s) (searchQuery s) (selectedYear s) (selectedVenue s)
    (selectedTags s) (excludedTags s) (showOnlyWithCode s) (currentPage s) v
    (inputPage s) (console s) (alerts s).
Definition set_inputPage (v : string) (s : State) : State :=
  mkState (allPapers s) (searchQuery s) (selectedYear s) (selectedVenue s)
    (selectedTags s) (excludedTags s) (showOnlyWithCode s) (currentPage s)
    (papersPerPage s) v (console s) (alerts s).
Definition console_push (msg : ConsoleEntry) (s : State) : State :=
  mkState (allPapers s) (searchQuery s) (selectedYear s) (selectedVenue s)
    (selectedTags s) (excludedTags s) (showOnlyWithCode s) (currentPage s)
    (papersPerPage s) (inputPage s) (console s ++ [msg]) (alerts s).
Definition alert (msg : Z) (s : State) : State :=
  mkState (allPapers s) (searchQuery s) (selectedYear s) (selectedVenue s)
    (selectedTags s) (excludedTags s) (showOnlyWithCode s) (currentPage s)
    (papersPerPage s) (inputPage s) (console s) (alerts s ++ [msg]).

(** The state of the page before anything is loaded or typed. *)
Definition initialState : State :=
  mkState [] "" YearAll "all" ∅ ∅ false 1 50 "" [] [].

Section Model.
Context {host : Host}.

(** [q] occurs in [s] when letter case is ignored. *)
Definition ci_substring (q s : string) : Prop :=
  is_substring (toLowerCase q) (toLowerCase s).

(** Two strings with the same lower case. *)
Definition ci_equal (a b : string) : Prop := toLowerCase a = toLowerCase b.

(** ** Filter engine: [filteredPapers] *)

Section Filter.
Variable s : State.

Definition query : string := trim (toLowerCase (searchQuery s)).

Definition matchesSearch (paper : Paper) : bool :=
  is_empty query ||
  (includes (toLowerCase (title paper)) query ||
   includes (toLowerCase (authors paper)) query ||
   includes (toLowerCase (abstract_text paper)) query ||
   includes (toLowerCase (keywords paper)) query ||
   includes (toLowerCase (venue paper)) query).

Definition matchesYear (paper : Paper) : bool :=
  match selectedYear s with
  | YearAll => true
  | YearIs y => bool_decide (year paper = parseInt_year y)
  end.

Definition matchesVenue (paper : Paper) : bool :=
  bool_decide (selectedVenue s = "all") ||
  bool_decide (venue paper = selectedVenue s).

(** [new Set(paper.keywords.split(';').map(k => k.trim().toLowerCase()))];
    only membership is asked of it. *)
Definition paperTags (paper : Paper) : list string :=
  (λ k, toLowerCase (trim k)) <$> split ";" (keywords paper).

Definition processedSelectedTags : list string :=
  toLowerCase <$> elements (selectedTags s).

Definition processedExcludedTags : list string :=
  toLowerCase <$> elements (excludedTags s).

Definition hasAllIncludedTags (paper : Paper) : bool :=
  forallb (λ tag, bool_decide (tag ∈ paperTags paper)) processedSelectedTags.

Definition hasNoExcludedTags (paper : Paper) : bool :=
  negb (existsb (λ tag, bool_decide (tag ∈ paperTags paper)) processedExcludedTags).

Definition hasCode (paper : Paper) : bool :=
  negb (showOnlyWithCode s) || negb (is_empty (trim (github_links paper))).

Definition paperMatches (paper : Paper) : bool :=
  matchesSearch paper && matchesYear paper && matchesVenue paper &&
  hasAllIncludedTags paper && hasNoExcludedTags paper && hasCode paper.

Definition filteredPapers : list Paper :=
  List.filter paperMatches (allPapers s).

End Filter.

(** ** Paginator *)

(** [Array.prototype.slice(start, end)]: a negative index counts from the
    end, both indices are clamped to the length. *)
Definition slice {A} (l : list A) (start end_ : Z) : list A :=
  let len := Z.of_nat (length l) in
  let k := if start <? 0 then Z.max (len + start) 0 else Z.min start len in
  let final := if end_ <? 0 then Z.max (len + end_) 0 else Z.min end_ len in
  take (Z.to_nat (final - k)) (drop (Z.to_nat k) l).

(** [Math.ceil(a / b)] for an array length [a] and a positive integer
    [b]: the quotient of two such integers as a double lies on the same
    side of every integer as the exact quotient. *)
Definition Math_ceil_div (a b : Z) : Z := - ((- a) / b).

(** The window of [filtered] shown for [currentPage] and [papersPerPage]. *)
Definition page_window (filtered : list Paper) (currentPage papersPerPage : Z)
  : list Paper :=
  let startIndex := (currentPage - 1) * papersPerPage in
  let endIndex := startIndex + papersPerPage in
  slice filtered startIndex endIndex.

Definition paginatedPapers (s : State) : list Paper :=
  page_window (filteredPapers s) (currentPage s) (papersPerPage s).

Definition page_count (len papersPerPage : Z) : Z :=
  Math_ceil_div len papersPerPage.

Definition totalPages (s : State) : Z :=
  page_count (Z.of_nat (length (filteredPapers s))) (papersPerPage s).

(** ** Handlers *)

(** [toggleTagFilter]: included tags go to the excluded set, excluded
    tags are dropped, other tags become included. *)
Definition toggleTagFilter (tag : string) (s : State) : State :=
  if decide (tag ∈ selectedTags s) then
    set_excludedTags (excludedTags s ∪ {[tag]})
      (set_selectedTags (selectedTags s ∖ {[tag]}) s)
  else if decide (tag ∈ excludedTags s) then
    set_excludedTags (excludedTags s ∖ {[tag]}) s
  else
    set_selectedTags (selectedTags s ∪ {[tag]}) s.

Definition clearSearch (s : State) : State := set_searchQuery "" s.

Definition clearAllFilters (s : State) : State :=
  set_excludedTags ∅
    (set_selectedTags ∅
      (set_selectedVenue "all" (set_selectedYear YearAll (set_searchQuery "" s)))).

Definition toggleShowOnlyWithCode (s : State) : State :=
  set_showOnlyWithCode (negb (showOnlyWithCode s)) s.

Definition goToPage (page : Z) (s : State) : State :=
  if (1 <=? page) && (page <=? totalPages s) then set_currentPage page s else s.

Definition prevPage (s : State) : State :=
  if 1 <? currentPage s then set_currentPage (currentPage s - 1) s else s.

Definition nextPage (s : State) : State :=
  if currentPage s <? totalPages s then set_currentPage (currentPage s + 1) s else s.

Definition changePapersPerPage (count : Z) (s : State) : State :=
  set_currentPage 1 (set_papersPerPage count s).

(** [goToInputPage]; [pageNumber] is what [parseInt(inputPage.value)]
    returned, [None] standing for NaN. *)
Definition goToInputPage (pageNumber : option Z) (s : State) : State :=
  match pageNumber with
  | Some n =>
      if (1 <=? n) && (n <=? totalPages s)
      then set_inputPage "" (set_currentPage n s)
      else alert (totalPages s) (set_inputPage "" s)
  | None => alert (totalPages s) (set_inputPage "" s)
  end.

(** ** Reactivity *)

(** What the user and the loader do to the refs: the handlers above, the
    assignments written in the template ([v-model] and the buttons that
    remove a filter), and the assignment of the loader to [allPapers]. *)
Inductive Event :=
  | SetSearchQuery (q : string)
  | ClearSearch
  | SetSelectedYear (y : YearSelection)
  | SetSelectedVenue (v : string)
  | ToggleTagFilter (tag : string)
  | DeleteSelectedTag (tag : string)
  | DeleteExcludedTag (tag : string)
  | ClearAllFilters
  | ToggleShowOnlyWithCode
  | SetAllPapers (papers : list Paper)
  | SetInputPage (text : string)
  | GoToPage (page : Z)
  | PrevPage
  | NextPage
  | ChangePapersPerPage (count : Z)
  | GoToInputPage (pageNumber : option Z).

Definition handle (e : Event) (s : State) : State :=
  match e with
  | SetSearchQuery q => set_searchQuery q s
  | ClearSearch => clearSearch s
  | SetSelectedYear y => set_selectedYear y s
  | SetSelectedVenue v => set_selectedVenue v s
  | ToggleTagFilter tag => toggleTagFilter tag s
  | DeleteSelectedTag tag => set_selectedTags (selectedTags s ∖ {[tag]}) s
  | DeleteExcludedTag tag => set_excludedTags (excludedTags s ∖ {[tag]}) s
  | ClearAllFilters => clearAllFilters s
  | ToggleShowOnlyWithCode => toggleShowOnlyWithCode s
  | SetAllPapers papers => set_allPapers papers s
  | SetInputPage text => set_inputPage text s
  | GoToPage page => goToPage page s
  | PrevPage => prevPage s
  | NextPage => nextPage s
  | ChangePapersPerPage count => changePapersPerPage count s
  | GoToInputPage pageNumber => goToInputPage pageNumber s
  end.

(** The refs read while [filteredPapers] is evaluated. *)
Definition filterInputs (s : State) :=
  (allPapers s, searchQuery s, selectedYear s, selectedVenue s,
   selectedTags s, excludedTags s, showOnlyWithCode s).

(** The six filter fields. *)
Definition filterState (s : State) :=
  (searchQuery s, selectedYear s, selectedVenue s,
   selectedTags s, excludedTags s, showOnlyWithCode s).

(** The framework runs an effect again when a ref that it read the last
    time was written with a different value.  Evaluating [filteredPapers]
    reads the collection and, in the callback of [filter], once per
    paper, the six filter refs: with an empty collection only the
    collection was read.  An assignment to [allPapers] stores a fresh
    array, which always counts as a different value; the other events
    leave the collection alone.  [before] and [after] are the refs before
    and after the handler of [e]. *)
Definition effect_triggered (e : Event) (before after : State) : Prop :=
  match e with
  | SetAllPapers _ => True
  | _ => allPapers before ≠ [] ∧ filterState before ≠ filterState after
  end.

#[global] Instance effect_triggered_dec e before after :
  Decision (effect_triggered e before after).
Proof. destruct e; simpl; apply _. Defined.

(** The effect registered with [watchEffect]: it reads [filteredPapers]
    and sets [currentPage] to 1; when triggered it runs before the page
    is rendered. *)
Definition watchEffect_resetPage (e : Event) (before after : State) : State :=
  if decide (effect_triggered e before after) then set_currentPage 1 after
  else after.

(** One event: the handler, then the pending effect. *)
Definition dispatch (e : Event) (s : State) : State :=
  watchEffect_resetPage e s (handle e s).

(** ** Facet index: [tagsWithCounts] *)

Record TagCount := mkTagCount { tag : string; count : Z }.

(** [Map<string, number>]: entries in insertion order, one per key. *)
Fixpoint map_get (k : string) (m : list (string * Z)) : option Z :=
  match m with
  | [] => None
  | (k', v) :: m' => if decide (k = k') then Some v else map_get k m'
  end.

Fixpoint map_set (k : string) (v : Z) (m : list (string * Z)) : list (string * Z) :=
  match m with
  | [] => [(k, v)]
  | (k', v') :: m' =>
      if decide (k = k') then (k', v) :: m' else (k', v') :: map_set k v m'
  end.

Definition countKeyword (m : list (string * Z)) (keyword : string) : list (string * Z) :=
  let trimmedKeyword := toLowerCase (trim keyword) in
  if is_empty trimmedKeyword then m
  else map_set trimmedKeyword (default 0 (map_get trimmedKeyword m) + 1) m.

Definition tagCountMap (papers : list Paper) : list (string * Z) :=
  foldl (λ m paper, foldl countKeyword m (split ";" (keywords paper))) [] papers.


Definition compareTagCounts (a b : TagCount) : Z :=
  if negb (count b =? count a) then count b - count a
  else localeCompare (tag a) (tag b).

(** [Array.prototype.sort(cmp)], a stable sort: by insertion. *)
Section Sort.
Context {A : Type} (cmp : A → A → Z).

Fixpoint sort_insert (x : A) (l : list A) : list A :=
  match l with
  | [] => [x]
  | y :: l' => if cmp x y <=? 0 then x :: y :: l' else y :: sort_insert x l'
  end.

Definition sort (l : list A) : list A := foldr sort_insert [] l.
End Sort.

(** The entries of the map as objects, sorted. *)
Definition rankedTagCounts (s : State) : list TagCount :=
  sort compareTagCounts
    ((λ '(tag, count), mkTagCount tag count) <$> tagCountMap (allPapers s)).


(** ** Suggestion engine: [searchSuggestions] *)

(** [Set<string>.add]: values in insertion order, each once. *)
Definition set_add (x : string) (set : list string) : list string :=
  if decide (x ∈ set) then set else set ++ [x].

Definition suggestAuthor (query : string) (suggestions : list string)
    (author : string) : list string :=
  let trimmedAuthor := toLowerCase (trim author) in
  if includes trimmedAuthor query then set_add (trim author) suggestions
  else suggestions.

Definition suggestKeyword (query : string) (suggestions : list string)
    (keyword : string) : list string :=
  let trimmedKeyword := toLowerCase (trim keyword) in
  if includes trimmedKeyword query then set_add (trim keyword) suggestions
  else suggestions.

Definition suggestPaper (query : string) (suggestions : list string)
    (paper : Paper) : list string :=
  let s1 := if includes (toLowerCase (title paper)) query
            then set_add (title paper) suggestions else suggestions in
  let s2 := foldl (suggestAuthor query) s1 (split "," (authors paper)) in
  foldl (suggestKeyword query) s2 (split ";" (keywords paper)).

Definition searchSuggestions (s : State) : list string :=
  let query := trim (toLowerCase (searchQuery s)) in
  if is_empty query then []
  else slice (foldl (suggestPaper query) [] (allPapers s)) 0 5.

(** ** Formula rendering: [renderLatex] *)

(** What [renderLatex] does besides returning its string: the calls of
    the renderer and the errors it reports. *)
Inductive Effect :=
  | KatexCall (formula : string) (displayMode : bool)
  | RenderError (msg : string).

(** [s] without its first [n] code units. *)
Fixpoint skip (n : nat) (s : string) : string :=
  match n, s with
  | O, _ => s
  | S _, EmptyString => EmptyString
  | S n', String _ s' => skip n' s'
  end.

(** The lazy group [(.*?)] followed by the closing delimiter: the
    shortest text before an occurrence of [close], and what follows that
    occurrence. *)
Fixpoint find_close (close s : string) : option (string * string) :=
  if startsWith s close then Some (EmptyString, skip (String.length close) s)
  else match s with
       | EmptyString => None
       | String c s' =>
           match find_close close s' with
           | Some (formula, rest) => Some (String c formula, rest)
           | None => None
           end
       end.

Section Replace.
(** [text.replace(/open(.*?)close/gs, cb)]: the matches are looked for
    from left to right, each after the end of the one before; [cb]
    receives the matched text and the group. *)
Variables open close : string.
Variable cb : string → string → string * list Effect.

Fixpoint replace_go (fuel : nat) (s : string) : string * list Effect :=
  match fuel, s with
  | O, _ => (s, [])
  | S _, EmptyString => (EmptyString, [])
  | S n, String c s' =>
      let unmatched :=
        let '(out, effs) := replace_go n s' in (String c out, effs) in
      if startsWith s open then
        match find_close close (skip (String.length open) s) with
        | Some (formula, rest) =>
            let '(html, effs1) := cb (open +:+ formula +:+ close) formula in
            let '(out, effs2) := replace_go n rest in
            (html +:+ out, effs1 ++ effs2)
        | None => unmatched
        end
      else unmatched
  end.

Definition replace (s : string) : string * list Effect :=
  replace_go (String.length s) s.
End Replace.

Section RenderLatex.
(** [katex.renderToString(formula, { displayMode })]: the markup, or
    [None] when it throws. *)
Variable katex : string → bool → option string.

(** The callback of the four replacements: render, and on an exception
    report it and give back the matched text. *)
Definition render_or_keep (displayMode : bool) (msg : string)
    (matched formula : string) : string * list Effect :=
  match katex formula displayMode with
  | Some html => (html, [KatexCall formula displayMode])
  | None => (matched, [KatexCall formula displayMode; RenderError msg])
  end.

Definition replace_display_dollars : string → string * list Effect :=
  replace "$$" "$$" (render_or_keep true "Error rendering display math:").
Definition replace_display_brackets : string → string * list Effect :=
  replace "\[" "\]" (render_or_keep true "Error rendering display math:").
Definition replace_inline_dollar : string → string * list Effect :=
  replace "$" "$" (render_or_keep false "Error rendering inline math:").
Definition replace_inline_parens : string → string * list Effect :=
  replace "\(" "\)" (render_or_keep false "Error rendering inline math:").

(** [renderLatex(text)]; [None] is an absent ([undefined] or [null])
    text. *)
Definition renderLatex (text : option string) : string * list Effect :=
  match text with
  | None => (EmptyString, [])
  | Some text =>
      if is_empty text then (EmptyString, [])
      else
        let '(t1, e1) := replace_display_dollars text in
        let '(t2, e2) := replace_display_brackets t1 in
        let '(t3, e3) := replace_inline_dollar t2 in
        let '(renderedText, e4) := replace_inline_parens t3 in
        (renderedText, e1 ++ e2 ++ e3 ++ e4)
  end.
End RenderLatex.

(** ** Dataset loader: [loadPapersData] *)

(** A parsed source document. *)
Inductive JsonValue :=
  | JsonNested (papers_by_venue_year : list (string * list (Z * list Paper)))
  | JsonArray (papers : list Paper)
  | JsonObject
  | JsonNull.

(** What fetching and parsing a path gives: [fetch] rejects, or
    [response.json()] rejects, or the parsed document. *)
Inductive FetchResult :=
  | FetchRejected
  | JsonRejected
  | Parsed (data : JsonValue).

(** Statements that change the refs and may throw. *)
Definition Exc (A : Type) : Type := State → State * (A + string).

Definition ret {A} (x : A) : Exc A := λ s, (s, inl x).
Definition throw {A} (error : string) : Exc A := λ s, (s, inr error).
Definition bind {A B} (m : Exc A) (k : A → Exc B) : Exc B :=
  λ s, match m s with
       | (s', inl x) => k x s'
       | (s', inr error) => (s', inr error)
       end.
Definition try_catch {A} (body : Exc A) (handler : string → Exc A) : Exc A :=
  λ s, match body s with
       | (s', inl x) => (s', inl x)
       | (s', inr error) => handler error s'
       end.
Definition modify (f : State → State) : Exc unit := λ s, (f s, inl tt).

#[global] Instance Exc_ret : MRet Exc := @ret.
#[global] Instance Exc_bind : MBind Exc := λ A B k m, bind m k.

Fixpoint for_each {A} (l : list A) (body : A → Exc unit) : Exc unit :=
  match l with
  | [] => ret tt
  | x :: l' => body x;; for_each l' body
  end.

Definition url1 : string := "/paper/data/openreview_zh_converted.json".
Definition url2 : string := "/paper/data/openreview_cvpr_aaai.json".

Section Loader.
Variable fetch : string → FetchResult.

(** [await (await fetch(url)).json()] *)
Definition fetch_json (url : string) : Exc JsonValue :=
  match fetch url with
  | FetchRejected => throw "TypeError: Failed to fetch"
  | JsonRejected => throw "SyntaxError: Unexpected token"
  | Parsed data => ret data
  end.

(** [allPapers.value = [...allPapers.value, ...papers]] *)
Definition appendPapers (papers : list Paper) : Exc unit :=
  modify (λ s, set_allPapers (allPapers s ++ papers) s).

(** The first document: read only when it has [papers_by_venue_year];
    the venues and the years in the order of [for ... in].  The keys of
    the years are integers ([[year: number]: Paper[]]), so the entry
    read under [parseInt(yearStr)] is the entry of the key; the lists are
    arrays, which the two tests for a value let pass. *)
Definition processFirst (papersData1 : JsonValue) : Exc unit :=
  match papersData1 with
  | JsonNull => throw "TypeError: Cannot read properties of null"
  | JsonNested papers_by_venue_year =>
      for_each papers_by_venue_year (λ '(venue, venueData),
        for_each venueData (λ '(year, yearPapers), appendPapers yearPapers))
  | JsonArray _ | JsonObject => ret tt
  end.

(** The second document: read only when it is an array. *)
Definition processSecond (papersData2 : JsonValue) : Exc unit :=
  match papersData2 with
  | JsonArray papers => appendPapers papers
  | _ => ret tt
  end.

Definition loadPapersData : Exc unit :=
  try_catch
    (papersData1 ← fetch_json url1;
     processFirst papersData1;;
     papersData2 ← fetch_json url2;
     processSecond papersData2;;
     modify (λ s, console_push
               (ConsoleLog "Total papers loaded:" (Z.of_nat (length (allPapers s)))) s))
    (λ error, modify (console_push (ConsoleError "Failed to load papers data:" error))).
End Loader.

(** ** Sessions *)

(** The page sizes offered by the selector are positive. *)
Definition validEvent (e : Event) : Prop :=
  match e with
  | ChangePapersPerPage count => 0 < count
  | _ => True
  end.

(** The states of a session: the initial one and those that events lead to. *)
Inductive reachable : State → Prop :=
  | reachable_initial : reachable initialState
  | reachable_dispatch e s :
      validEvent e → reachable s → reachable (dispatch e s).

(** The current page lies between 1 and the page count, or is 1 when
    there is no page. *)
Definition page_in_range (s : State) : Prop :=
  1 ≤ currentPage s ≤ Z.max 1 (totalPages s).

(** ** The filter, in words *)

(** [paper] carries the tag [t]: one of the pieces of its keywords, split
    at semicolons and trimmed, has the lower case of [t]. *)
Definition has_tag (t : string) (paper : Paper) : Prop :=
  ∃ k, k ∈ split ";" (keywords paper) ∧ ci_equal t (trim k).

(** The six conditions for the text [q] that is looked for and the
    selections of [s]: [q] is empty or occurs in the lower case of one
    of the five fields; the year, the venue, the tags and the code link
    are as selected. *)
Definition matches_in_words (q : string) (s : State) (paper : Paper) : Prop :=
  (q = "" ∨
   ∃ field, field ∈ [title paper; authors paper; abstract_text paper;
                      keywords paper; venue paper] ∧
            is_substring q (toLowerCase field)) ∧
  (selectedYear s = YearAll ∨ selectedYear s = YearIs (year paper)) ∧
  (selectedVenue s = "all" ∨ selectedVenue s = venue paper) ∧
  (∀ t, t ∈ selectedTags s → has_tag t paper) ∧
  (∀ t, t ∈ excludedTags s → ¬ has_tag t paper) ∧
  (showOnlyWithCode s = false ∨ trim (github_links paper) ≠ "").

(** [out] is [l] without the elements that do not satisfy [P]: the
    elements that satisfy it are kept, each at its place and as often as
    it occurs. *)
Inductive selects {A} (P : A → Prop) : list A → list A → Prop :=
  | selects_nil : selects P [] []
  | selects_keep x l out : P x → selects P l out → selects P (x :: l) (x :: out)
  | selects_drop x l out : ¬ P x → selects P l out → selects P (x :: l) out.

(** ** The tag facet, in words *)

(** The tags of the collection with their repetitions: the pieces of
    every keywords string split at semicolons, trimmed and lower-cased,
    the empty ones left out. *)
Definition tag_occurrences (papers : list Paper) : list string :=
  papers ≫= λ paper,
    List.filter (λ t, negb (is_empty t))
      ((λ k, toLowerCase (trim k)) <$> split ";" (keywords paper)).

(** How often [t] occurs in [l]. *)
Definition occurrences (t : string) (l : list string) : Z :=
  Z.of_nat (length (filter (λ x, x = t) l)).

(** Adding [n] occurrences to a count that may be absent. *)
Definition bump (n : Z) (o : option Z) : option Z :=
  if decide (n = 0) then o else Some (default 0 o + n).




(** ** The suggestions, in words *)

(** What one paper offers for the text [q] that is looked for, in the
    order of the scan: its title, its authors in the order of the split
    at commas, its keywords in the order of the split at semicolons;
    authors and keywords trimmed, each entry only when its lower case
    contains [q]. *)
Definition candidates (q : string) (paper : Paper) : list string :=
  (if includes (toLowerCase (title paper)) q then [title paper] else []) ++
  (trim <$> List.filter (λ author, includes (toLowerCase (trim author)) q)
              (split "," (authors paper))) ++
  (trim <$> List.filter (λ keyword, includes (toLowerCase (trim keyword)) q)
              (split ";" (keywords paper))).

(** A list without its repetitions, every value at its first place. *)
Fixpoint first_occurrences (l : list string) : list string :=
  match l with
  | [] => []
  | x :: l' => x :: filter (λ y, y ≠ x) (first_occurrences l')
  end.

(** Lower-casing leaves white space alone and makes no text empty: it
    commutes with trimming, the empty string is its own lower case and
    the lower case of no other string. *)
Definition lower_case_keeps_white_space : Prop :=
  (∀ x, trim (toLowerCase x) = toLowerCase (trim x)) ∧
  (∀ x, toLowerCase x = "" ↔ x = "").

(** ** The loader, in words *)

(** The records of the first document: the lists of a nested document in
    the order of the enumeration; another shape gives none. *)
Definition recordsFirst (data : JsonValue) : list Paper :=
  match data with
  | JsonNested papers_by_venue_year =>
      papers_by_venue_year ≫= λ '(venue, venueData),
        venueData ≫= λ '(year, yearPapers), yearPapers
  | _ => []
  end.

(** The records of the second document: those of an array. *)
Definition recordsSecond (data : JsonValue) : list Paper :=
  match data with
  | JsonArray papers => papers
  | _ => []
  end.

(** Loading the first document fails: the fetch or the parse is rejected,
    or the parsed value is null. *)
Definition first_fails (r : FetchResult) : Prop :=
  r = FetchRejected ∨ r = JsonRejected ∨ r = Parsed JsonNull.

(** Loading the second document fails: the fetch or the parse is rejected. *)
Definition second_fails (r : FetchResult) : Prop :=
  r = FetchRejected ∨ r = JsonRejected.

(** * The rest of the script *)

(** ** Facet index: [years], [venues], [tags] *)

(** [Set.add] for a set of any values: insertion order, each value once. *)
Definition Set_add {A} `{EqDecision A} (x : A) (set : list A) : list A :=
  if decide (x ∈ set) then set else set ++ [x].

(** [allPapers.value.forEach(paper => yearSet.add(paper.year))] *)
Definition yearSet (papers : list Paper) : list Z :=
  foldl (λ set paper, Set_add (year paper) set) [] papers.

(** [Array.from(yearSet).sort((a, b) => b - a)] *)
Definition years (s : State) : list Z :=
  sort (λ a b, b - a) (yearSet (allPapers s)).

Definition venueSet (papers : list Paper) : list string :=
  foldl (λ set paper,
           if is_empty (venue paper) then set else Set_add (venue paper) set)
        [] papers.

(** The comparison of [Array.prototype.sort()] without a comparator, on
    strings: by code units, from left to right. *)
Definition defaultCompare (a b : string) : Z :=
  match String.compare a b with Lt => -1 | Eq => 0 | Gt => 1 end.

Definition venues (s : State) : list string :=
  sort defaultCompare (venueSet (allPapers s)).

(** The older list of tags, which splits the keywords at commas. *)
Definition tagSet (papers : list Paper) : list string :=
  foldl (λ set paper,
           foldl (λ set keyword,
                    let trimmedKeyword := trim keyword in
                    if is_empty trimmedKeyword then set
                    else Set_add trimmedKeyword set)
                 set (split "," (keywords paper)))
        [] papers.

Definition tags (s : State) : list string :=
  sort defaultCompare (tagSet (allPapers s)).

(** ** [formatTag] *)






(** ** Selection and expanded abstracts *)





(** ** Page buttons: [showPageButton], [showEllipsis] *)

Definition showPageButton (page : Z) (s : State) : bool :=
  if (page =? 1) || (page =? totalPages s) || (page =? currentPage s) then true
  else if (currentPage s - 3 <? page) && (page <? currentPage s + 3) then true
  else false.

Definition showEllipsis (position : string) (s : State) : bool :=
  if totalPages s <=? 7 then false
  else if decide (position = "left") then 4 <? currentPage s
  else if decide (position = "right") then currentPage s <? totalPages s - 3
  else false.

(** The buttons of [v-for="page in totalPages"] that are shown. *)
Definition shownPages (s : State) : list Z :=
  List.filter (λ page, showPageButton page s) (seqZ 1 (totalPages s)).

(** The number of a card in the template:
    [(currentPage - 1) * papersPerPage + index + 1]. *)
Definition paperNumber (s : State) (index : nat) : Z :=
  (currentPage s - 1) * papersPerPage s + Z.of_nat index + 1.

(** ** [highlightSearchTerm] *)

(** The class [[.*+?^${}()|[\]\\]]. *)
Definition is_regexp_special (c : ascii) : bool :=
  existsb (Ascii.eqb c)
    ["."; "*"; "+"; "?"; "^"; "$"; "{"; "}"; "("; ")"; "|"; "["; "]"; "\"]%char.

(** [text.replace(/[.*+?^${}()|[\]\\]/g, '\\$&')]: a backslash before
    every code unit of the class. *)
Fixpoint escapeRegExp (text : string) : string :=
  match text with
  | EmptyString => EmptyString
  | String c text' =>
      if is_regexp_special c then String "\" (String c (escapeRegExp text'))
      else String c (escapeRegExp text')
  end.

(** What a pattern made of plain code units and of escaped special ones
    matches: the text whose units are the plain ones and the ones after a
    backslash.  A pattern with a bare special unit, or with a backslash
    before another unit or at the end, is outside this fragment
    ([None]). *)
Fixpoint literalPattern (pattern : string) : option string :=
  match pattern with
  | EmptyString => Some EmptyString
  | String c rest =>
      if Ascii.eqb c "\" then
        match rest with
        | EmptyString => None
        | String c' rest' =>
            if is_regexp_special c' then String c' <$> literalPattern rest'
            else None
        end
      else if is_regexp_special c then None
      else String c <$> literalPattern rest
  end.

(** The code units of [s] as the flag [i] of a regexp compares them. *)
Definition canonical (s : string) : list N :=
  canonicalize <$> list_ascii_of_string s.

(** [text] starts with [q], letter case ignored (the flag [i]): code unit
    by code unit, two units match when their canonical forms are equal. *)
Fixpoint startsWithIgnoreCase (text q : string) {struct q} : bool :=
  match q, text with
  | EmptyString, _ => true
  | String _ _, EmptyString => false
  | String a q', String b text' =>
      if N.eqb (canonicalize a) (canonicalize b)
      then startsWithIgnoreCase text' q' else false
  end.

(** The first [n] code units of [s]. *)
Fixpoint firstUnits (n : nat) (s : string) : string :=
  match n, s with
  | O, _ => EmptyString
  | S _, EmptyString => EmptyString
  | S n', String c s' => String c (firstUnits n' s')
  end.

(** [text.replace(regex, '<mark>$1</mark>')] for the pattern [(q)] with
    the flags [g] and [i], [q] a literal text that is not empty: the
    matches from left to right, each after the end of the one before. *)
Fixpoint mark_go (fuel : nat) (q text : string) : string :=
  match fuel, text with
  | O, _ => text
  | S _, EmptyString => EmptyString
  | S n, String c text' =>
      if startsWithIgnoreCase text q then
        "<mark>" +:+ firstUnits (String.length q) text +:+ "</mark>" +:+
        mark_go n q (skip (String.length q) text)
      else String c (mark_go n q text')
  end.

Definition highlightSearchTerm (text : string) (s : State) : string :=
  if is_empty (searchQuery s) then text
  else
    let query := escapeRegExp (searchQuery s) in
    match literalPattern query with
    | Some q => mark_go (String.length text) q text
    | None => text
    end.

(** ** The rest of the script, in words *)

(** Nothing but the search box narrows the list: year and venue are
    'all', no tag is included or excluded, the code-only switch is off. *)
Definition no_selection (s : State) : Prop :=
  selectedYear s = YearAll ∧ selectedVenue s = "all" ∧
  selectedTags s = ∅ ∧ excludedTags s = ∅ ∧ showOnlyWithCode s = false.

(** The four pairs of delimiters of [renderLatex], each with the display
    mode its formulas are rendered in, in the order of the replacements. *)
Definition delimiters : list (string * string * bool) :=
  [("$$", "$$", true); ("\[", "\]", true); ("$", "$", false); ("\(", "\)", false)].

(** A text without a dollar sign and without a backslash: nothing in it
    opens or closes a formula. *)
Definition plainText (s : string) : Prop :=
  has_unit "$" s = false ∧ has_unit "\" s = false.

(** [s] starts with the code unit [c]. *)
Definition head_is (c : ascii) (s : string) : bool :=
  match s with
  | EmptyString => false
  | String c' _ => Ascii.eqb c c'
  end.

(** [q] occurs in [text], letter case ignored as the flag [i] does. *)
Definition occurs_ignoring_case (q text : string) : Prop :=
  ∃ pre m post, text = pre +:+ m +:+ post ∧ canonical m = canonical q.

(** The same, computed: [q] starts at some place of [text]. *)
Fixpoint includesIgnoreCase (text q : string) : bool :=
  startsWithIgnoreCase text q ||
  match text with
  | EmptyString => false
  | String _ text' => includesIgnoreCase text' q
  end.

(** [out] is [text] with marks around the places where [q] occurs, letter
    case ignored: from left to right, a place where [q] starts is marked
    and the scan goes on after it, any other code unit is copied. *)
Inductive marked (q : string) : string → string → Prop :=
  | marked_nil : marked q "" ""
  | marked_match m rest out :
      canonical m = canonical q → marked q rest out →
      marked q (m +:+ rest) ("<mark>" +:+ m +:+ "</mark>" +:+ out)
  | marked_unit c rest out :
      (∀ m rest', String c rest = m +:+ rest' → canonical m ≠ canonical q) →
      marked q rest out → marked q (String c rest) (String c out).

End Model.

(** ** A host for the examples *)

(** The operations of a host on the code units of the model, the
    Latin-1 range.  Lower case, white space and the canonical forms of
    the flag [i] are those of the Unicode tables.  The capitals of the
    micro sign and of the y with diaeresis are no code units of the
    model: [toUpperCase] leaves these two as they are.  The comparison
    is a collation in the manner of the browsers: control characters,
    then punctuation and symbols in an order of their own, then digits,
    then letters; the collation of a browser has more levels, which
    come into play when two texts hold the same letters. *)
Module Latin1.

Definition is_upper (c : ascii) : bool :=
  let n := N_of_ascii c in
  (((65 <=? n) && (n <=? 90)) ||
   ((192 <=? n) && (n <=? 222) && negb (n =? 215)))%N.

Definition lower_unit (c : ascii) : ascii :=
  if is_upper c then ascii_of_N (N_of_ascii c + 32) else c.

Fixpoint toLowerCase (s : string) : string :=
  match s with
  | EmptyString => EmptyString
  | String c s' => String (lower_unit c) (toLowerCase s')
  end.

(** White space and line ends: TAB, LF, VT, FF, CR, SP, NBSP. *)
Definition is_ws (c : ascii) : bool :=
  let n := N_of_ascii c in
  (((9 <=? n) && (n <=? 13)) || (n =? 32) || (n =? 160))%N.

Fixpoint trimStart (s : string) : string :=
  match s with
  | EmptyString => EmptyString
  | String c s' => if is_ws c then trimStart s' else s
  end.

Fixpoint trimEnd (s : string) : string :=
  match s with
  | EmptyString => EmptyString
  | String c s' =>
      let r := trimEnd s' in
      if is_ws c && is_empty r then EmptyString else String c r
  end.

Definition trim (s : string) : string := trimEnd (trimStart s).

Definition is_lower (c : ascii) : bool :=
  let n := N_of_ascii c in
  (((97 <=? n) && (n <=? 122)) ||
   ((224 <=? n) && (n <=? 254) && negb (n =? 247)))%N.

Definition upper_unit (c : ascii) : ascii :=
  if is_lower c then ascii_of_N (N_of_ascii c - 32) else c.

(** The sharp s has a capital of two code units. *)
Definition upper_units (c : ascii) : string :=
  if (N_of_ascii c =? 223)%N then "SS" else String (upper_unit c) EmptyString.

Fixpoint toUpperCase (s : string) : string :=
  match s with
  | EmptyString => EmptyString
  | String c s' => upper_units c +:+ toUpperCase s'
  end.

(** The capital of the code unit when it is one code unit, else the
    code unit. *)
Definition canonicalize (c : ascii) : N :=
  let n := N_of_ascii c in
  if (n =? 181)%N then 924%N
  else if (n =? 255)%N then 376%N
  else N_of_ascii (upper_unit c).

Definition is_digit (c : ascii) : bool :=
  let n := N_of_ascii c in ((48 <=? n) && (n <=? 57))%N.

(** The punctuation and the symbols of ASCII in the order of the
    collation, the space first. *)
Definition punctuation : list N :=
  [32; 95; 45; 44; 59; 58; 33; 63; 46; 39; 34; 40; 41; 91; 93; 123; 125;
   64; 42; 47; 92; 38; 35; 37; 96; 94; 43; 60; 61; 62; 124; 126; 36]%N.

Fixpoint index_of (n : N) (l : list N) : option N :=
  match l with
  | [] => None
  | m :: l' => if (n =? m)%N then Some 0%N else N.succ <$> index_of n l'
  end.

(** The place of a code unit in the collation: punctuation and symbols,
    then digits, then letters, a small letter before its capital. *)
Definition rank (c : ascii) : N :=
  let n := N_of_ascii c in
  if is_digit c then (300 + n)%N
  else if is_lower c then (400 + 2 * n)%N
  else if is_upper c then (400 + 2 * (n + 32) + 1)%N
  else match index_of n punctuation with
       | Some i => (100 + i)%N
       | None => n
       end.

Fixpoint collate (a b : string) : comparison :=
  match a, b with
  | EmptyString, EmptyString => Eq
  | EmptyString, String _ _ => Lt
  | String _ _, EmptyString => Gt
  | String x a', String y b' =>
      match N.compare (rank x) (rank y) with
      | Eq => collate a' b'
      | c => c
      end
  end.

Definition localeCompare (a b : string) : Z :=
  match collate a b with Lt => -1 | Eq => 0 | Gt => 1 end.

End Latin1.

Definition latin1_host : Host := {|
  toLowerCase := Latin1.toLowerCase;
  toUpperCase := Latin1.toUpperCase;
  trim := Latin1.trim;
  localeCompare := Latin1.localeCompare;
  canonicalize := Latin1.canonicalize
|}.

(** ** Sample data *)

Definition nlp_paper : Paper :=
  mkPaper "ICLR" 2024 "Parsing" "Parsing (en)" "We parse." "We parse (en)."
    "NLP" "Ann Lee" "" "" "" "v1".

Definition vision_paper : Paper :=
  mkPaper "CVPR" 2023 "Segmentation" "Segmentation (en)" "We segment."
    "We segment (en)." "Vision" "Bo Chen" "" "" "" "v2".

(** One paper in the collection, and a search box holding "nlp" followed
    by a space. *)
Definition trailing_space_state : State :=
  set_searchQuery "nlp " (set_allPapers [nlp_paper] initialState).

(** 120 papers, ten of them about NLP; the third page of 50 is shown. *)
Definition catalogue120 : list Paper :=
  replicate 110 vision_paper ++ replicate 10 nlp_paper.

Definition page3_state : State :=
  dispatch (host:=latin1_host) (GoToPage 3)
    (dispatch (host:=latin1_host) (SetAllPapers catalogue120) initialState).

(** The two papers of the example. *)
Definition deep_learning_state : State :=
  set_allPapers
    [mkPaper "ICLR" 2024 "A" "A" "" "" "Deep Learning; NLP" "Ann Lee" "" "" "" "v1";
     mkPaper "CVPR" 2023 "B" "B" "" "" "deep learning; Vision" "Bo Chen" "" "" "" "v2"]
    initialState.

(** Two papers that share an author and a keyword. *)
Definition suggestion_state : State :=
  set_searchQuery " le "
    (set_allPapers
       [mkPaper "ICLR" 2024 "Learning to parse" "" "" "" "NLP; Learning" "Ann Lee, Bo Chen" "" "" "" "v1";
        mkPaper "CVPR" 2023 "Segmentation" "" "" "" "Vision; learning ;Learning" " Ann Lee ,Cy Lemm" "" "" "" "v2"]
       initialState).


(** A renderer in the manner of KaTeX: it rejects the formula with the
    unclosed group and wraps every other formula, the empty one too, in
    markup. *)
Definition katex_sample (formula : string) (displayMode : bool) : option string :=
  if decide (formula = "\frac{") then None
  else Some ("<span>" +:+ formula +:+ "</span>").

(** A renderer that rejects every formula. *)
Definition katex_failing (formula : string) (displayMode : bool) : option string :=
  None.

Definition five_papers : list Paper :=
  [nlp_paper; vision_paper; nlp_paper; vision_paper; nlp_paper].

(** The first path cannot be fetched, the second gives five records. *)
Definition fetch_second_only (url : string) : FetchResult :=
  if decide (url = url1) then FetchRejected else Parsed (JsonArray five_papers).

(** The first path gives a nested document, the second cannot be parsed. *)
Definition fetch_first_only (url : string) : FetchResult :=
  if decide (url = url1)
  then Parsed (JsonNested [("ICLR", [(2024, [nlp_paper]); (2023, [nlp_paper])]);
                           ("CVPR", [(2023, [vision_paper])])])
  else JsonRejected.


(** * Properties *)

Section Properties.
Context {host : Host}.

(** ** Strings *)

Example split_keywords :
  split ";" "Deep Learning; NLP;;" = ["Deep Learning"; " NLP"; ""; ""].
Proof. reflexivity. Qed.

Example split_empty : split "," "" = [""].
Proof. reflexivity. Qed.

Lemma is_empty_true s : is_empty s = true ↔ s = "".
Proof. destruct s; simpl; split; congruence. Qed.

Lemma is_empty_false s : is_empty s = false ↔ s ≠ "".
Proof. destruct s; simpl; split; congruence. Qed.

Lemma append_String c s t : String c s +:+ t = String c (s +:+ t).
Proof. reflexivity. Qed.

Lemma append_empty_l t : "" +:+ t = t.
Proof. reflexivity. Qed.


Lemma append_assoc s t u : (s +:+ t) +:+ u = s +:+ t +:+ u.
Proof. induction s as [|c s IH]; [done|]. by rewrite !append_String, IH. Qed.

Lemma length_append s t :
  String.length (s +:+ t) = (String.length s + String.length t)%nat.
Proof. induction s as [|c s IH]; [done|]. rewrite append_String. simpl. by rewrite IH. Qed.

Lemma startsWith_spec s q : startsWith s q = true ↔ ∃ post, s = q +:+ post.
Proof.
  revert s. induction q as [|a q IH]; intros s; simpl.
  - split; [intros _; by exists s | done].
  - destruct s as [|b s].
    + split; [done | intros [post Hp]; discriminate].
    + destruct (Ascii.eqb_spec a b) as [->|Hne].
      * rewrite IH. split; intros [post Hp]; exists post;
          rewrite append_String in *; congruence.
      * split; [done | intros [post Hp]; rewrite append_String in Hp; congruence].
Qed.

Lemma includes_spec s q : includes s q = true ↔ is_substring q s.
Proof.
  unfold is_substring. induction s as [|c s IH]; simpl.
  - rewrite orb_false_r, startsWith_spec. split.
    + intros [post ->]. by exists "", post.
    + intros [pre [post Hp]]. destruct pre; [by exists post | discriminate].
  - rewrite orb_true_iff, IH, startsWith_spec. split.
    + intros [[post ->] | (pre & post & ->)].
      * by exists "", post.
      * by exists (String c pre), post.
    + intros [[|c' pre] [post Hp]].
      * left. by exists post.
      * right. exists pre, post. rewrite append_String in Hp. congruence.
Qed.

(** ** Filter engine *)

Lemma matchesSearch_spec s paper :
  matchesSearch s paper = true ↔
  (query s = "" ∨
   ∃ field, field ∈ [title paper; authors paper; abstract_text paper;
                      keywords paper; venue paper] ∧
            is_substring (query s) (toLowerCase field)).
Proof.
  unfold matchesSearch.
  rewrite !orb_true_iff, !includes_spec, is_empty_true.
  split.
  - intros [?|[[[[?|?]|?]|?]|?]]; [by left|right..];
      eexists; (split; [|eassumption]); set_solver.
  - intros [?|(field & Hin & Hsub)]; [by left|right].
    rewrite !elem_of_cons, elem_of_nil in Hin.
    destruct Hin as [->|[->|[->|[->|[->|[]]]]]]; tauto.
Qed.

Lemma matchesYear_spec s paper :
  matchesYear s paper = true ↔
  (selectedYear s = YearAll ∨ selectedYear s = YearIs (year paper)).
Proof.
  unfold matchesYear, parseInt_year. destruct (selectedYear s) as [|y].
  - split; [by left | done].
  - rewrite bool_decide_eq_true. split; [intros ->; by right|].
    by intros [|[= ->]].
Qed.

Lemma matchesVenue_spec s paper :
  matchesVenue s paper = true ↔
  (selectedVenue s = "all" ∨ selectedVenue s = venue paper).
Proof.
  unfold matchesVenue. rewrite orb_true_iff, !bool_decide_eq_true.
  intuition congruence.
Qed.

Lemma paperTags_has_tag t paper :
  bool_decide (toLowerCase t ∈ paperTags paper) = true ↔ has_tag t paper.
Proof.
  unfold paperTags, has_tag, ci_equal.
  rewrite bool_decide_eq_true, list_elem_of_fmap.
  split; intros (k & ? & ?); by exists k.
Qed.

Lemma hasAllIncludedTags_spec s paper :
  hasAllIncludedTags s paper = true ↔ ∀ t, t ∈ selectedTags s → has_tag t paper.
Proof.
  unfold hasAllIncludedTags, processedSelectedTags.
  rewrite forallb_forall. split.
  - intros H t Ht. apply paperTags_has_tag, H, list_elem_of_In.
    apply list_elem_of_fmap. exists t. by rewrite elem_of_elements.
  - intros H tag Hin. apply list_elem_of_In, list_elem_of_fmap in Hin.
    destruct Hin as (t & -> & Ht). apply paperTags_has_tag, H.
    by apply elem_of_elements.
Qed.

Lemma hasNoExcludedTags_spec s paper :
  hasNoExcludedTags s paper = true ↔ ∀ t, t ∈ excludedTags s → ¬ has_tag t paper.
Proof.
  unfold hasNoExcludedTags, processedExcludedTags.
  rewrite negb_true_iff, <- not_true_iff_false, existsb_exists. split.
  - intros H t Ht Htag. apply H. exists (toLowerCase t). split.
    + apply list_elem_of_In, list_elem_of_fmap. exists t.
      by rewrite elem_of_elements.
    + by apply paperTags_has_tag.
  - intros H (tag & Hin & Htag). apply list_elem_of_In, list_elem_of_fmap in Hin.
    destruct Hin as (t & -> & Ht). apply (H t); [by apply elem_of_elements|].
    by apply paperTags_has_tag.
Qed.

Lemma hasCode_spec s paper :
  hasCode s paper = true ↔
  (showOnlyWithCode s = false ∨ trim (github_links paper) ≠ "").
Proof.
  unfold hasCode.
  by rewrite orb_true_iff, !negb_true_iff, is_empty_false.
Qed.

Lemma paperMatches_spec s paper :
  paperMatches s paper = true ↔ matches_in_words (query s) s paper.
Proof.
  unfold paperMatches, matches_in_words.
  rewrite !andb_true_iff, matchesSearch_spec, matchesYear_spec,
    matchesVenue_spec, hasAllIncludedTags_spec, hasNoExcludedTags_spec,
    hasCode_spec.
  tauto.
Qed.

Lemma filter_sublist {A} (f : A → bool) (l : list A) :
  sublist (List.filter f l) l.
Proof.
  induction l as [|x l IH]; simpl; [constructor|].
  destruct (f x); by constructor.
Qed.

Lemma filteredPapers_pure s s' :
  filterInputs s = filterInputs s' → filteredPapers s = filteredPapers s'.
Proof.
  unfold filterInputs, filteredPapers. intros [= Ha Hq Hy Hv Ht He Hc].
  rewrite Ha. apply filter_ext. intros paper.
  unfold paperMatches, matchesSearch, query, matchesYear, matchesVenue,
    hasAllIncludedTags, hasNoExcludedTags, processedSelectedTags,
    processedExcludedTags, hasCode.
  by rewrite Hq, Hy, Hv, Ht, He, Hc.
Qed.

(** The filter keeps the papers that match, each where it is. *)
Lemma filteredPapers_selects s :
  selects (matches_in_words (query s) s) (allPapers s) (filteredPapers s).
Proof.
  unfold filteredPapers. induction (allPapers s) as [|paper papers IH]; simpl.
  - constructor.
  - destruct (paperMatches s paper) eqn:Hmatch.
    + apply selects_keep; [by apply paperMatches_spec | done].
    + apply selects_drop; [|done].
      rewrite <- paperMatches_spec. congruence.
Qed.

(** C1, as the code has it: the output of the filter is determined by the
    collection and the filter refs, it is a subsequence of the collection
    in the order of the collection (the matching papers, each at its
    place and as often as it occurs), and a paper of the collection is in
    it exactly when the six conditions hold for the text of the search
    box, lower-cased and then trimmed by the host: that text is empty or
    occurs in the lower case of the title, the authors, the abstract, the
    keywords or the venue; the year is 'all' or the year of the paper; the
    venue is 'all' or the venue of the paper; every included tag and no
    excluded tag is, up to lower case, a trimmed piece of the keywords;
    the code-only flag is off or the trimmed code link is not empty.
    This holds for every host: nothing is asked of its lower case and of
    its white space. *)
Theorem filteredPapers_spec (s : State) :
  (∀ s', filterInputs s = filterInputs s' → filteredPapers s = filteredPapers s') ∧
  sublist (filteredPapers s) (allPapers s) ∧
  selects (matches_in_words (trim (toLowerCase (searchQuery s))) s)
    (allPapers s) (filteredPapers s) ∧
  (∀ paper, paper ∈ filteredPapers s ↔
            paper ∈ allPapers s ∧
            matches_in_words (trim (toLowerCase (searchQuery s))) s paper).
Proof.
  split; [apply filteredPapers_pure|].
  split; [apply filter_sublist|].
  split; [apply filteredPapers_selects|].
  intros paper. unfold filteredPapers.
  rewrite <- (paperMatches_spec s paper), !list_elem_of_In, filter_In. tauto.
Qed.

(** ** Tag toggle *)

Lemma toggleTagFilter_disjoint tag s :
  selectedTags s ## excludedTags s →
  selectedTags (toggleTagFilter tag s) ## excludedTags (toggleTagFilter tag s).
Proof.
  intros Hdisj. unfold toggleTagFilter.
  repeat case_decide; simpl; set_solver.
Qed.

Lemma toggleTagFilter_neutral tag s :
  tag ∉ selectedTags s → tag ∉ excludedTags s →
  toggleTagFilter tag s = set_selectedTags (selectedTags s ∪ {[tag]}) s.
Proof. intros ??. unfold toggleTagFilter. by rewrite !decide_False. Qed.

Lemma toggleTagFilter_included tag s :
  tag ∈ selectedTags s →
  toggleTagFilter tag s =
  set_excludedTags (excludedTags s ∪ {[tag]})
    (set_selectedTags (selectedTags s ∖ {[tag]}) s).
Proof. intros ?. unfold toggleTagFilter. by rewrite decide_True. Qed.

Lemma toggleTagFilter_excluded tag s :
  tag ∉ selectedTags s → tag ∈ excludedTags s →
  toggleTagFilter tag s = set_excludedTags (excludedTags s ∖ {[tag]}) s.
Proof.
  intros ??. unfold toggleTagFilter. by rewrite decide_False, decide_True.
Qed.

Lemma gset_add_remove (X : gset string) t : t ∉ X → (X ∪ {[t]}) ∖ {[t]} = X.
Proof. set_solver. Qed.

Lemma gset_add_elem_of (X : gset string) t : t ∈ X ∪ {[t]}.
Proof. set_solver. Qed.

(** The first two activations, from the neutral state. *)
Lemma toggleTagFilter_twice tag s :
  tag ∉ selectedTags s → tag ∉ excludedTags s →
  toggleTagFilter tag (toggleTagFilter tag s) =
  set_excludedTags (excludedTags s ∪ {[tag]}) (set_selectedTags (selectedTags s) s).
Proof.
  intros Hsel Hexc. rewrite (toggleTagFilter_neutral tag s Hsel Hexc).
  rewrite toggleTagFilter_included by apply gset_add_elem_of.
  simpl. by rewrite gset_add_remove.
Qed.

(** The third activation leads back to the state before the first. *)
Lemma toggleTagFilter_thrice tag s :
  tag ∉ selectedTags s → tag ∉ excludedTags s →
  toggleTagFilter tag (toggleTagFilter tag (toggleTagFilter tag s)) = s.
Proof.
  intros Hsel Hexc. rewrite (toggleTagFilter_twice tag s Hsel Hexc).
  rewrite toggleTagFilter_excluded; [|done|apply gset_add_elem_of].
  simpl. rewrite gset_add_remove by done. by destruct s.
Qed.

(** C5: from the neutral state three activations of a tag lead to
    included, then excluded, then back to the state before the first
    activation; no state on the way has the tag in both sets, and a
    toggle keeps the two sets disjoint. *)
Theorem toggleTagFilter_cycle (tag : string) (s : State) :
  tag ∉ selectedTags s → tag ∉ excludedTags s →
  let s1 := toggleTagFilter tag s in
  let s2 := toggleTagFilter tag s1 in
  let s3 := toggleTagFilter tag s2 in
  (tag ∈ selectedTags s1 ∧ tag ∉ excludedTags s1) ∧
  ((tag ∉ selectedTags s2) ∧ tag ∈ excludedTags s2) ∧
  ((tag ∉ selectedTags s3) ∧ tag ∉ excludedTags s3) ∧
  s3 = s ∧
  (selectedTags s ## excludedTags s →
   selectedTags s1 ## excludedTags s1 ∧
   selectedTags s2 ## excludedTags s2 ∧
   selectedTags s3 ## excludedTags s3).
Proof.
  intros Hsel Hexc s1 s2 s3.
  assert (Hs1 : s1 = set_selectedTags (selectedTags s ∪ {[tag]}) s)
    by by apply toggleTagFilter_neutral.
  assert (Hs2 : s2 = set_excludedTags (excludedTags s ∪ {[tag]})
                       (set_selectedTags (selectedTags s) s))
    by by apply toggleTagFilter_twice.
  assert (Hs3 : s3 = s) by by apply toggleTagFilter_thrice.
  split; [rewrite Hs1; simpl; split; [apply gset_add_elem_of | done]|].
  split; [rewrite Hs2; simpl; split; [done | apply gset_add_elem_of]|].
  split; [by rewrite Hs3|]. split; [done|].
  intros Hdisj. split; [|split].
  - by apply toggleTagFilter_disjoint.
  - by do 2 apply toggleTagFilter_disjoint.
  - by rewrite Hs3.
Qed.

(** ** Paginator: page count and current page *)

(** [Math_ceil_div a b] is the ceiling of [a / b]. *)
Lemma Math_ceil_div_bounds a b :
  0 < b → (Math_ceil_div a b - 1) * b < a ≤ Math_ceil_div a b * b.
Proof.
  intros Hb. unfold Math_ceil_div.
  pose proof (Z.div_mod (- a) b ltac:(lia)) as Hdiv.
  pose proof (Z.mod_pos_bound (- a) b Hb) as Hmod.
  nia.
Qed.

Lemma Math_ceil_div_unique a b n :
  0 < b → (n - 1) * b < a ≤ n * b → Math_ceil_div a b = n.
Proof.
  intros Hb Hn. pose proof (Math_ceil_div_bounds a b Hb). nia.
Qed.

Lemma page_count_zero P : page_count 0 P = 0.
Proof. unfold page_count, Math_ceil_div. simpl. by rewrite Zdiv_0_l. Qed.

Lemma page_count_positive L P : 0 < L → 0 < P → 1 ≤ page_count L P.
Proof.
  intros HL HP. unfold page_count.
  pose proof (Math_ceil_div_bounds L P HP). nia.
Qed.

Lemma totalPages_eq s s' :
  filterInputs s = filterInputs s' → papersPerPage s = papersPerPage s' →
  totalPages s = totalPages s'.
Proof.
  intros Hf Hp. unfold totalPages. by rewrite (filteredPapers_pure s s' Hf), Hp.
Qed.

Lemma goToPage_in_range page s : page_in_range s → page_in_range (goToPage page s).
Proof.
  unfold goToPage, page_in_range. intros Hs.
  destruct ((1 <=? page) && (page <=? totalPages s)) eqn:Hguard; [|done].
  apply andb_true_iff in Hguard as [H1%Z.leb_le H2%Z.leb_le].
  rewrite (totalPages_eq (set_currentPage page s) s) by done. simpl. lia.
Qed.

Lemma prevPage_in_range s : page_in_range s → page_in_range (prevPage s).
Proof.
  unfold prevPage, page_in_range. intros Hs.
  destruct (1 <? currentPage s) eqn:Hguard; [|done].
  apply Z.ltb_lt in Hguard.
  rewrite (totalPages_eq (set_currentPage (currentPage s - 1) s) s) by done.
  simpl. lia.
Qed.

Lemma nextPage_in_range s : page_in_range s → page_in_range (nextPage s).
Proof.
  unfold nextPage, page_in_range. intros Hs.
  destruct (currentPage s <? totalPages s) eqn:Hguard; [|done].
  apply Z.ltb_lt in Hguard.
  rewrite (totalPages_eq (set_currentPage (currentPage s + 1) s) s) by done.
  simpl. lia.
Qed.

Lemma goToInputPage_in_range pageNumber s :
  page_in_range s → page_in_range (goToInputPage pageNumber s).
Proof.
  unfold goToInputPage, page_in_range. intros Hs.
  destruct pageNumber as [n|]; [|done].
  destruct ((1 <=? n) && (n <=? totalPages s)) eqn:Hguard; [|done].
  apply andb_true_iff in Hguard as [H1%Z.leb_le H2%Z.leb_le].
  rewrite (totalPages_eq (set_inputPage "" (set_currentPage n s)) s) by done.
  simpl. lia.
Qed.

Lemma changePapersPerPage_in_range count s :
  page_in_range (changePapersPerPage count s).
Proof. unfold page_in_range. simpl. lia. Qed.

Lemma totalPages_no_papers s : allPapers s = [] → totalPages s = 0.
Proof.
  intros Hs. unfold totalPages, filteredPapers. rewrite Hs. apply page_count_zero.
Qed.

(** Only the assignment of the loader changes the collection. *)
Lemma handle_allPapers e s :
  (∀ papers, e ≠ SetAllPapers papers) → allPapers (handle e s) = allPapers s.
Proof.
  intros He.
  destruct e as [q| |y|v|t|t|t| | |papers|text|page| | |count|pageNumber];
    simpl; try done.
  - unfold toggleTagFilter. by repeat case_decide.
  - by destruct (He papers).
  - unfold goToPage. by destruct (_ && _).
  - unfold prevPage. by destruct (_ <? _).
  - unfold nextPage. by destruct (_ <? _).
  - unfold goToInputPage. destruct pageNumber; [|done]. by destruct (_ && _).
Qed.

Lemma untriggered_inputs e s :
  ¬ effect_triggered e s (handle e s) →
  allPapers (handle e s) = allPapers s ∧
  (allPapers s = [] ∨ filterState s = filterState (handle e s)).
Proof.
  intros Hnot.
  assert (Hload : ∀ papers, e ≠ SetAllPapers papers)
    by (intros papers ->; by apply Hnot).
  split; [by apply handle_allPapers|].
  assert (Hnot' : ¬ (allPapers s ≠ [] ∧ filterState s ≠ filterState (handle e s)))
    by (by destruct e).
  destruct (decide (allPapers s = [])) as [He|He]; [by left|right].
  destruct (decide (filterState s = filterState (handle e s))) as [Hf|Hf];
    [done|tauto].
Qed.

(** Without a trigger the page count depends on the page size only. *)
Lemma totalPages_untriggered e s :
  ¬ effect_triggered e s (handle e s) →
  papersPerPage s = papersPerPage (handle e s) →
  totalPages (handle e s) = totalPages s.
Proof.
  intros Hnot Hp. apply untriggered_inputs in Hnot as [Ha [He|Hf]].
  - rewrite !totalPages_no_papers; congruence.
  - symmetry. apply totalPages_eq; [|done].
    unfold filterInputs. unfold filterState in Hf. congruence.
Qed.

(** Every event leaves the current page between 1 and the page count (or
    at 1 when there is no page). *)
Lemma dispatch_in_range e s : page_in_range s → page_in_range (dispatch e s).
Proof.
  intros Hs. unfold dispatch, watchEffect_resetPage.
  case_decide as Hsame; [unfold page_in_range; simpl; lia|].
  pose proof (totalPages_untriggered e s Hsame) as Htotal.
  destruct e as [q| |y|v|t|t|t| | |papers|text|page| | |count|pageNumber];
    simpl in *;
    try (unfold page_in_range in *; by rewrite Htotal).
  - unfold page_in_range in *.
    rewrite Htotal by (unfold toggleTagFilter; by repeat case_decide).
    replace (currentPage (toggleTagFilter t s)) with (currentPage s); [done|].
    unfold toggleTagFilter. by repeat case_decide.
  - by apply goToPage_in_range.
  - by apply prevPage_in_range.
  - by apply nextPage_in_range.
  - apply changePapersPerPage_in_range.
  - by apply goToInputPage_in_range.
Qed.

Lemma dispatch_papersPerPage e s :
  validEvent e → 0 < papersPerPage s → 0 < papersPerPage (dispatch e s).
Proof.
  intros He Hs. unfold dispatch, watchEffect_resetPage.
  assert (0 < papersPerPage (handle e s)).
  { destruct e as [q| |y|v|t|t|t| | |papers|text|page| | |count|pageNumber];
      simpl in *; try done.
    - unfold toggleTagFilter. by repeat case_decide.
    - unfold goToPage. by destruct (_ && _).
    - unfold prevPage. by destruct (_ <? _).
    - unfold nextPage. by destruct (_ <? _).
    - unfold goToInputPage. destruct pageNumber; [|done]. by destruct (_ && _). }
  by case_decide.
Qed.

Lemma reachable_in_range s : reachable s → page_in_range s.
Proof.
  induction 1 as [|e s He Hs IH].
  - unfold page_in_range. vm_compute. split; discriminate.
  - by apply dispatch_in_range.
Qed.

Lemma reachable_papersPerPage s : reachable s → 0 < papersPerPage s.
Proof.
  induction 1 as [|e s He Hs IH]; [done|]. by apply dispatch_papersPerPage.
Qed.

Lemma goToPage_out_of_range page s :
  ¬ (1 ≤ page ≤ totalPages s) → goToPage page s = s.
Proof.
  intros Hout. unfold goToPage.
  destruct ((1 <=? page) && (page <=? totalPages s)) eqn:Hguard; [|done].
  apply andb_true_iff in Hguard as [H1%Z.leb_le H2%Z.leb_le]. lia.
Qed.

(** C3, as the code has it: for a length [L] and a page size [P > 0] the
    page count is the ceiling of [L / P]; that is [max(1, ceil(L / P))]
    when [L > 0], and 0 when [L = 0].  The current page is not clamped:
    in every state of a session it lies in [[1, max(1, totalPages)]],
    because the navigation changes it only to a page in
    [[1, totalPages]] and ignores other requests, and no operation fails. *)
Theorem totalPages_spec (L P : Z) (s : State) :
  0 ≤ L → 0 < P → reachable s →
  ((page_count L P - 1) * P < L ≤ page_count L P * P) ∧
  (0 < L → page_count L P = Z.max 1 (page_count L P)) ∧
  (L = 0 → page_count L P = 0) ∧
  totalPages s =
    page_count (Z.of_nat (length (filteredPapers s))) (papersPerPage s) ∧
  0 < papersPerPage s ∧
  1 ≤ currentPage s ≤ Z.max 1 (totalPages s) ∧
  (∀ page, ¬ (1 ≤ page ≤ totalPages s) → goToPage page s = s).
Proof.
  intros HL HP Hs.
  split; [by apply Math_ceil_div_bounds|].
  split; [intros HL'; pose proof (page_count_positive L P HL' HP); lia|].
  split; [intros ->; apply page_count_zero|].
  split; [done|].
  split; [by apply reachable_papersPerPage|].
  split; [by apply reachable_in_range|].
  intros page. apply goToPage_out_of_range.
Qed.

(** ** Reset of the current page *)

(** A handler that changes a filter field leaves the current page alone. *)
Lemma handle_filter_change_page e s :
  filterState (handle e s) ≠ filterState s →
  currentPage (handle e s) = currentPage s ∧
  papersPerPage (handle e s) = papersPerPage s.
Proof.
  intros Hchange.
  destruct e as [q| |y|v|t|t|t| | |papers|text|page| | |count|pageNumber];
    simpl in *; try done.
  - unfold toggleTagFilter. by repeat case_decide.
  - exfalso. apply Hchange. unfold goToPage. by destruct (_ && _).
  - exfalso. apply Hchange. unfold prevPage. by destruct (_ <? _).
  - exfalso. apply Hchange. unfold nextPage. by destruct (_ <? _).
  - exfalso. apply Hchange. unfold goToInputPage.
    destruct pageNumber; [|done]. by destruct (_ && _).
Qed.

Lemma no_papers_first_page s :
  page_in_range s → allPapers s = [] → currentPage s = 1.
Proof.
  unfold page_in_range. intros Hs Hempty.
  rewrite (totalPages_no_papers s Hempty) in Hs. lia.
Qed.

Lemma paginatedPapers_first_page s :
  paginatedPapers (set_currentPage 1 s) =
  slice (filteredPapers s) 0 (papersPerPage s).
Proof.
  unfold paginatedPapers, page_window.
  rewrite (filteredPapers_pure (set_currentPage 1 s) s) by done.
  simpl. by rewrite Z.add_0_l.
Qed.

Lemma paginatedPapers_page_one s :
  currentPage s = 1 →
  paginatedPapers s = slice (filteredPapers s) 0 (papersPerPage s).
Proof.
  intros Hpage. unfold paginatedPapers, page_window. rewrite Hpage.
  simpl. by rewrite Z.add_0_l.
Qed.

(** C4: in a session, after an event that changes a filter field the
    current page is 1 (the effect has set it, or, while the collection is
    empty, it has never left 1), and the page shown next is the first
    window of the new filtered list; choosing a page size sets the
    current page to 1 as well. *)
Theorem filter_change_resets_page (e : Event) (s : State) (count : Z) :
  reachable s →
  (filterState (handle e s) ≠ filterState s →
   currentPage (dispatch e s) = 1 ∧
   paginatedPapers (dispatch e s) =
     slice (filteredPapers (handle e s)) 0 (papersPerPage (handle e s))) ∧
  currentPage (dispatch (ChangePapersPerPage count) s) = 1 ∧
  papersPerPage (dispatch (ChangePapersPerPage count) s) = count.
Proof.
  intros Hs. split.
  - intros Hchange. unfold dispatch, watchEffect_resetPage.
    case_decide as Htrigger.
    + split; [done | apply paginatedPapers_first_page].
    + apply untriggered_inputs in Htrigger as [_ [Hempty|Hsame]];
        [|by rewrite Hsame in Hchange].
      destruct (handle_filter_change_page e s Hchange) as [Hpage _].
      assert (currentPage (handle e s) = 1) as Hone.
      { rewrite Hpage. apply no_papers_first_page; [|done].
        by apply reachable_in_range. }
      split; [done | by apply paginatedPapers_page_one].
  - unfold dispatch, watchEffect_resetPage. by case_decide.
Qed.

(** ** Paginator: the pages partition the filtered list *)

Lemma slice_window {A} (l : list A) (a b : Z) :
  0 ≤ a → 0 ≤ b →
  slice l a (a + b) = take (Z.to_nat b) (drop (Z.to_nat a) l).
Proof.
  intros Ha Hb. unfold slice.
  rewrite (proj2 (Z.ltb_ge a 0)), (proj2 (Z.ltb_ge (a + b) 0)) by lia.
  destruct (Z.le_gt_cases a (Z.of_nat (length l))) as [Hin|Hout].
  - rewrite (Z.min_l a) by done.
    destruct (Z.le_gt_cases (a + b) (Z.of_nat (length l))) as [Hin'|Hout'].
    + rewrite Z.min_l by done. f_equal. lia.
    + rewrite Z.min_r by lia. rewrite !take_ge; [done|..];
        rewrite length_drop; lia.
  - rewrite !Z.min_r by lia. rewrite Z.sub_diag. simpl.
    rewrite (drop_ge l (Z.to_nat a)) by lia. by rewrite take_0, take_nil.
Qed.

Lemma windows_concat {A} (l : list A) (P n : nat) :
  concat ((λ i, take P (drop (i * P) l)) <$> seq 0 n) = take (n * P) l.
Proof.
  induction n as [|n IH]; [by rewrite take_0|].
  rewrite seq_S, fmap_app, concat_app, IH. simpl.
  rewrite app_nil_r, take_take_drop. f_equal. lia.
Qed.

Lemma pages_concat_upto (filtered : list Paper) (P n : Z) :
  0 < P → Z.of_nat (length filtered) ≤ n * P → 0 ≤ n →
  concat ((λ page, page_window filtered page P) <$> seqZ 1 n) = filtered.
Proof.
  intros HP Hn Hn0. unfold seqZ.
  rewrite <- list_fmap_compose.
  rewrite (list_fmap_ext _
             (λ i, take (Z.to_nat P) (drop (i * Z.to_nat P) filtered))).
  - rewrite windows_concat. apply take_ge. nia.
  - intros _ i _. simpl. unfold page_window. cbv zeta.
    replace ((Z.of_nat i + 1 - 1) * P) with (Z.of_nat i * P) by lia.
    rewrite slice_window by nia. do 2 f_equal. nia.
Qed.

(** C7: with [P > 0] and [max(1, ceil(L / P))] pages, the windows of the
    pages 1, 2, ... put one after the other are the filtered list itself,
    so every element is on exactly one page, in its place; the same holds
    for the [ceil(L / P)] pages that [totalPages] counts. *)
Theorem pages_concat (filtered : list Paper) (P : Z) :
  0 < P →
  let L := Z.of_nat (length filtered) in
  concat ((λ page, page_window filtered page P)
            <$> seqZ 1 (Z.max 1 (Math_ceil_div L P))) = filtered ∧
  concat ((λ page, page_window filtered page P)
            <$> seqZ 1 (page_count L P)) = filtered.
Proof.
  intros HP L. pose proof (Math_ceil_div_bounds L P HP) as Hceil.
  split; apply pages_concat_upto; unfold page_count; try done; nia.
Qed.

(** ** Facet index: the tag counts *)

Lemma map_get_set k v m k' :
  map_get k' (map_set k v m) = if decide (k' = k) then Some v else map_get k' m.
Proof.
  induction m as [|[k0 v0] m IH]; simpl.
  - by repeat case_decide.
  - repeat (case_decide; simpl; subst); try done; try congruence.
Qed.

Lemma map_set_keys k v m :
  (map_set k v m).*1 = if decide (k ∈ m.*1) then m.*1 else m.*1 ++ [k].
Proof.
  induction m as [|[k0 v0] m IH]; [done|].
  cbn [map_set]. rewrite fmap_cons. cbn [fst].
  destruct (decide (k = k0)) as [->|Hne].
  - rewrite decide_True; [done | apply list_elem_of_here].
  - rewrite fmap_cons, IH. cbn [fst]. destruct (decide (k ∈ m.*1)) as [Hin|Hnin].
    + rewrite decide_True; [done | by apply list_elem_of_further].
    + rewrite decide_False; [done|]. rewrite elem_of_cons. tauto.
Qed.

Lemma map_set_NoDup k v m : NoDup m.*1 → NoDup (map_set k v m).*1.
Proof.
  intros Hm. rewrite map_set_keys. case_decide; [done|].
  apply NoDup_app. split; [done|]. split; [|apply NoDup_singleton].
  intros x Hx Hx'. apply list_elem_of_singleton in Hx'. by subst.
Qed.

Lemma map_get_elem_of k v m : NoDup m.*1 → (k, v) ∈ m ↔ map_get k m = Some v.
Proof.
  induction m as [|[k0 v0] m IH]; intros Hm.
  - split; [intros H; by apply elem_of_nil in H | done].
  - rewrite fmap_cons in Hm. apply NoDup_cons in Hm as [Hk0 Hm].
    rewrite elem_of_cons, (IH Hm). cbn [map_get].
    destruct (decide (k = k0)) as [->|Hne].
    + split; [intros [[= ->]|Hget]; [done|] | intros [= ->]; by left].
      exfalso. apply Hk0. apply (IH Hm) in Hget.
      apply list_elem_of_fmap. by exists (k0, v).
    + split; [intros [[= ? ?]|?]; [done|done] | by right].
Qed.

Lemma bump_bump a b o : 0 ≤ a → 0 ≤ b → bump b (bump a o) = bump (a + b) o.
Proof.
  intros Ha Hb. unfold bump.
  repeat case_decide; simpl; try lia; try done; f_equal; lia.
Qed.

Lemma occurrences_nonneg t l : 0 ≤ occurrences t l.
Proof. unfold occurrences. lia. Qed.

Lemma occurrences_nil t : occurrences t [] = 0.
Proof. done. Qed.

Lemma occurrences_cons t x l :
  occurrences t (x :: l) = (if decide (x = t) then 1 else 0) + occurrences t l.
Proof.
  unfold occurrences. rewrite filter_cons.
  case_decide; simpl length; lia.
Qed.

Lemma occurrences_app t l1 l2 :
  occurrences t (l1 ++ l2) = occurrences t l1 + occurrences t l2.
Proof. unfold occurrences. rewrite filter_app, length_app. lia. Qed.

(** The pieces of one keywords string that are counted. *)
Lemma countKeyword_fold_get m ks t :
  map_get t (foldl countKeyword m ks) =
  bump (occurrences t
          (List.filter (λ t, negb (is_empty t)) ((λ k, toLowerCase (trim k)) <$> ks)))
       (map_get t m).
Proof.
  revert m. induction ks as [|k ks IH]; intros m; [done|].
  rewrite fmap_cons. cbn [foldl List.filter]. rewrite IH.
  unfold countKeyword.
  destruct (is_empty (toLowerCase (trim k))) eqn:Hempty; cbn [negb]; [done|].
  rewrite map_get_set, occurrences_cons.
  pose proof (occurrences_nonneg t
    (List.filter (λ t, negb (is_empty t)) ((λ k, toLowerCase (trim k)) <$> ks))) as Hn.
  set (n := occurrences t _) in *.
  destruct (decide (t = toLowerCase (trim k))) as [->|Hne].
  - rewrite decide_True by done. unfold bump.
    repeat case_decide; simpl; try lia; f_equal; lia.
  - rewrite decide_False by congruence. by rewrite Z.add_0_l.
Qed.

Lemma countKeyword_fold_NoDup m ks :
  NoDup m.*1 → NoDup (foldl countKeyword m ks).*1.
Proof.
  revert m. induction ks as [|k ks IH]; intros m Hm; [done|].
  cbn [foldl]. apply IH. unfold countKeyword.
  destruct (is_empty _); [done | by apply map_set_NoDup].
Qed.

Lemma tagCountMap_fold_get m papers t :
  map_get t
    (foldl (λ m paper, foldl countKeyword m (split ";" (keywords paper))) m papers) =
  bump (occurrences t (tag_occurrences papers)) (map_get t m).
Proof.
  revert m. induction papers as [|paper papers IH]; intros m; [done|].
  cbn [foldl]. rewrite IH, countKeyword_fold_get, bump_bump
    by apply occurrences_nonneg.
  by rewrite <- occurrences_app.
Qed.

Lemma tagCountMap_fold_NoDup m papers :
  NoDup m.*1 →
  NoDup (foldl (λ m paper, foldl countKeyword m (split ";" (keywords paper)))
           m papers).*1.
Proof.
  revert m. induction papers as [|paper papers IH]; intros m Hm; [done|].
  cbn [foldl]. by apply IH, countKeyword_fold_NoDup.
Qed.

(** The map holds, for every tag that occurs, the number of its
    occurrences, and nothing else. *)
Lemma tagCountMap_spec papers t n :
  (t, n) ∈ tagCountMap papers ↔
  0 < n ∧ n = occurrences t (tag_occurrences papers).
Proof.
  unfold tagCountMap.
  rewrite map_get_elem_of by (apply tagCountMap_fold_NoDup; constructor).
  rewrite tagCountMap_fold_get. unfold bump. cbn [map_get default].
  pose proof (occurrences_nonneg t (tag_occurrences papers)).
  case_decide; split; try done; try lia.
  - intros [= <-]. lia.
  - intros [_ ->]. by rewrite Z.add_0_l.
Qed.

(** *** Sorting *)

Section SortProperties.
Context {A : Type} (cmp : A → A → Z).
Let precedes (x y : A) : Prop := cmp x y ≤ 0.

Lemma sort_insert_Permutation x l : sort_insert cmp x l ≡ₚ x :: l.
Proof.
  induction l as [|y l IH]; simpl; [done|].
  destruct (cmp x y <=? 0); [done|]. rewrite IH. apply Permutation_swap.
Qed.

Lemma sort_Permutation l : sort cmp l ≡ₚ l.
Proof.
  induction l as [|x l IH]; simpl; [done|].
  by rewrite sort_insert_Permutation, IH.
Qed.

Hypothesis precedes_total : ∀ x y, precedes x y ∨ precedes y x.
Hypothesis precedes_trans : ∀ x y z, precedes x y → precedes y z → precedes x z.

Lemma sort_insert_sorted x l :
  StronglySorted precedes l → StronglySorted precedes (sort_insert cmp x l).
Proof.
  induction l as [|y l IH]; intros Hl; simpl.
  - by repeat constructor.
  - apply StronglySorted_inv in Hl as [Hl Hy].
    destruct (cmp x y <=? 0) eqn:Hxy.
    + apply Z.leb_le in Hxy. constructor; [by constructor|].
      constructor; [done|].
      eapply Forall_impl; [exact Hy|]. intros z Hz. by eapply precedes_trans.
    + apply Z.leb_gt in Hxy. constructor; [by apply IH|].
      rewrite sort_insert_Permutation. constructor; [|done].
      destruct (precedes_total x y) as [Hle|Hle]; [unfold precedes in Hle; lia|done].
Qed.

Lemma sort_sorted l : StronglySorted precedes (sort cmp l).
Proof.
  induction l as [|x l IH]; simpl; [constructor | by apply sort_insert_sorted].
Qed.
End SortProperties.

(** *** The order of the ranking *)

Lemma string_compare_le_trans a b c :
  String.compare a b ≠ Gt → String.compare b c ≠ Gt → String.compare a c ≠ Gt.
Proof.
  revert b c. induction a as [|x a IH]; intros [|y b] [|z c]; simpl; try done.
  unfold Ascii.compare.
  destruct (N.compare_spec (N_of_ascii x) (N_of_ascii y)) as [Hxy|Hxy|Hxy];
    destruct (N.compare_spec (N_of_ascii y) (N_of_ascii z)) as [Hyz|Hyz|Hyz];
    try done;
    destruct (N.compare_spec (N_of_ascii x) (N_of_ascii z)) as [Hxz|Hxz|Hxz];
    try done; try lia.
  apply IH.
Qed.

Lemma string_compare_le_total a b :
  String.compare a b ≠ Gt ∨ String.compare b a ≠ Gt.
Proof.
  rewrite (String.compare_antisym b a).
  destruct (String.compare a b); simpl; auto.
Qed.




Lemma StronglySorted_weaken {A} (R R' : A → A → Prop) l :
  (∀ x y, R x y → R' x y) → StronglySorted R l → StronglySorted R' l.
Proof.
  intros HR. induction 1 as [|x l Hl IH Hx]; constructor; [done|].
  eapply Forall_impl; [exact Hx | apply HR].
Qed.


Lemma slice_prefix {A} (l : list A) (n : Z) :
  0 ≤ n → slice l 0 n = take (Z.to_nat n) l.
Proof. intros Hn. by rewrite <- (Z.add_0_l n) at 1; rewrite slice_window. Qed.

Lemma rankedTagCounts_elem_of s t n :
  mkTagCount t n ∈ rankedTagCounts s ↔
  0 < n ∧ n = occurrences t (tag_occurrences (allPapers s)).
Proof.
  unfold rankedTagCounts.
  rewrite sort_Permutation, <- tagCountMap_spec, list_elem_of_fmap. split.
  - intros ([t' n'] & [= -> ->] & Hin). done.
  - intros Hin. by exists (t, n).
Qed.



(** ** Suggestion engine *)

Lemma set_add_fold acc l :
  foldl (λ set x, set_add x set) acc l =
  acc ++ filter (λ y, y ∉ acc) (first_occurrences l).
Proof.
  revert acc. induction l as [|x l IH]; intros acc.
  - by rewrite app_nil_r.
  - cbn [foldl first_occurrences]. rewrite IH. unfold set_add.
    destruct (decide (x ∈ acc)) as [Hin|Hnin].
    + rewrite filter_cons_False by tauto.
      rewrite list_filter_filter_l; [done|]. intros y Hy ->. tauto.
    + rewrite filter_cons_True by done. rewrite <- app_assoc. simpl.
      do 2 f_equal. rewrite list_filter_filter. apply list_filter_iff.
      intros y. rewrite elem_of_app, list_elem_of_singleton. tauto.
Qed.

Lemma first_occurrences_elem_of x l : x ∈ first_occurrences l ↔ x ∈ l.
Proof.
  induction l as [|y l IH]; [done|]. cbn [first_occurrences].
  rewrite !elem_of_cons, list_elem_of_filter, IH.
  destruct (decide (x = y)); tauto.
Qed.

Lemma first_occurrences_NoDup l : NoDup (first_occurrences l).
Proof.
  induction l as [|y l IH]; [constructor|]. cbn [first_occurrences].
  apply NoDup_cons. split; [|by apply NoDup_filter].
  rewrite list_elem_of_filter. tauto.
Qed.

Lemma suggestAuthor_fold q acc l :
  foldl (suggestAuthor q) acc l =
  foldl (λ set x, set_add x set) acc
    (trim <$> List.filter (λ author, includes (toLowerCase (trim author)) q) l).
Proof.
  revert acc. induction l as [|a l IH]; intros acc; [done|].
  cbn [foldl List.filter]. rewrite IH. unfold suggestAuthor.
  by destruct (includes (toLowerCase (trim a)) q).
Qed.

Lemma suggestKeyword_fold q acc l :
  foldl (suggestKeyword q) acc l =
  foldl (λ set x, set_add x set) acc
    (trim <$> List.filter (λ keyword, includes (toLowerCase (trim keyword)) q) l).
Proof.
  revert acc. induction l as [|k l IH]; intros acc; [done|].
  cbn [foldl List.filter]. rewrite IH. unfold suggestKeyword.
  by destruct (includes (toLowerCase (trim k)) q).
Qed.

Lemma suggestPaper_fold q acc paper :
  suggestPaper q acc paper =
  foldl (λ set x, set_add x set) acc (candidates q paper).
Proof.
  unfold suggestPaper, candidates.
  rewrite suggestKeyword_fold, suggestAuthor_fold, !foldl_app.
  by destruct (includes (toLowerCase (title paper)) q).
Qed.

(** The scan adds the candidates of the papers in the order of the
    collection. *)
Lemma suggestPaper_scan q acc papers :
  foldl (suggestPaper q) acc papers =
  foldl (λ set x, set_add x set) acc (papers ≫= candidates q).
Proof.
  revert acc. induction papers as [|paper papers IH]; intros acc; [done|].
  cbn [foldl]. by rewrite bind_cons, foldl_app, IH, suggestPaper_fold.
Qed.

Lemma candidates_spec q x paper :
  x ∈ candidates q paper ↔
  (x = title paper ∧ is_substring q (toLowerCase (title paper))) ∨
  (∃ author, author ∈ split "," (authors paper) ∧ x = trim author ∧
             is_substring q (toLowerCase (trim author))) ∨
  (∃ keyword, keyword ∈ split ";" (keywords paper) ∧ x = trim keyword ∧
              is_substring q (toLowerCase (trim keyword))).
Proof.
  unfold candidates.
  rewrite !elem_of_app, !list_elem_of_fmap.
  setoid_rewrite list_elem_of_In. setoid_rewrite filter_In.
  setoid_rewrite includes_spec. setoid_rewrite <- list_elem_of_In.
  match goal with
  | |- ?P1 ∨ ?P2 ∨ ?P3 ↔ ?Q1 ∨ ?Q2 ∨ ?Q3 =>
      assert (H1 : P1 ↔ Q1); [|assert (H2 : P2 ↔ Q2); [|assert (H3 : P3 ↔ Q3)]]
  end.
  - destruct (includes _ _) eqn:Hinc.
    + apply includes_spec in Hinc. rewrite list_elem_of_singleton. tauto.
    + rewrite elem_of_nil. split; [done|]. intros [_ Hsub].
      apply includes_spec in Hsub. congruence.
  - split; intros (a & ? & ? & ?); by exists a.
  - split; intros (k & ? & ? & ?); by exists k.
  - tauto.
Qed.

(** C9: the text that is looked for is the query, lower-cased and
    trimmed by the host.  When it is empty there is no suggestion;
    otherwise the suggestions are the first five of the candidates met
    when the collection is scanned in its order (for each paper the
    title, the authors split at commas, the keywords split at
    semicolons), every value at its first place; they are pairwise
    different, at most five, and each is a title, a trimmed author or a
    trimmed keyword of a paper whose lower case contains that text.
    This holds for every host.  On a host whose lower case leaves white
    space alone, that text is the lower case of the trimmed query: it is
    empty exactly when the trimmed query is, and it occurs in the lower
    case of a text exactly when the trimmed query occurs in the text,
    letter case ignored. *)
Theorem searchSuggestions_spec (s : State) :
  let q := trim (toLowerCase (searchQuery s)) in
  (q = "" → searchSuggestions s = []) ∧
  (q ≠ "" →
   searchSuggestions s =
     take 5 (first_occurrences (allPapers s ≫= candidates q)) ∧
   NoDup (searchSuggestions s) ∧
   (length (searchSuggestions s) ≤ 5)%nat ∧
   ∀ x, x ∈ searchSuggestions s →
     ∃ paper, paper ∈ allPapers s ∧
       ((x = title paper ∧ is_substring q (toLowerCase (title paper))) ∨
        (∃ author, author ∈ split "," (authors paper) ∧ x = trim author ∧
                   is_substring q (toLowerCase (trim author))) ∨
        (∃ keyword, keyword ∈ split ";" (keywords paper) ∧ x = trim keyword ∧
                    is_substring q (toLowerCase (trim keyword))))) ∧
  (lower_case_keeps_white_space →
   (q = "" ↔ trim (searchQuery s) = "") ∧
   ∀ text, is_substring q (toLowerCase text) ↔
           ci_substring (trim (searchQuery s)) text).
Proof.
  intros q. unfold searchSuggestions. fold q. split; [|split].
  - intros ->. done.
  - intros Hq.
    assert (is_empty q = false) as -> by by rewrite is_empty_false.
    assert (Heq : slice (foldl (suggestPaper q) [] (allPapers s)) 0 5 =
                  take 5 (first_occurrences (allPapers s ≫= candidates q))).
    { rewrite slice_prefix by lia. rewrite suggestPaper_scan, set_add_fold.
      cbn [app]. f_equal.
      induction (first_occurrences _) as [|y l IH]; [done|].
      rewrite filter_cons_True by apply not_elem_of_nil. by rewrite IH. }
    rewrite Heq. split; [done|].
    split; [eapply sublist_NoDup; [apply first_occurrences_NoDup | apply sublist_take]|].
    split; [rewrite length_take; lia|].
    intros x Hx. apply (subseteq_take 5) in Hx.
    rewrite first_occurrences_elem_of in Hx.
    apply list_elem_of_bind in Hx as (paper & Hx & Hpaper).
    exists paper. split; [done|]. by apply candidates_spec.
  - intros [Hcommute Hempty]. unfold q, ci_substring.
    rewrite Hcommute. split; [apply Hempty | done].
Qed.

(** ** Formula rendering *)

Lemma startsWith_skip s q :
  startsWith s q = true → s = q +:+ skip (String.length q) s.
Proof.
  revert s. induction q as [|a q IH]; intros s; simpl; [done|].
  destruct s as [|b s]; [done|].
  destruct (Ascii.eqb_spec a b) as [->|]; [|done].
  intros Hs. rewrite append_String. f_equal. by apply IH.
Qed.

Lemma skip_length n s : (String.length (skip n s) ≤ String.length s)%nat.
Proof.
  revert s. induction n as [|n IH]; intros [|c s]; simpl; try lia.
  specialize (IH s). lia.
Qed.

Lemma find_close_Some close s formula rest :
  find_close close s = Some (formula, rest) → s = formula +:+ close +:+ rest.
Proof.
  revert formula. induction s as [|c s IH]; intros formula; simpl.
  - destruct (startsWith "" close) eqn:Hstart; [|done].
    intros [= <- <-]. by apply startsWith_skip.
  - destruct (startsWith (String c s) close) eqn:Hstart.
    + intros [= <- <-]. by apply startsWith_skip.
    + destruct (find_close close s) as [[f r]|]; [|done].
      intros [= <- <-]. rewrite append_String. f_equal. by apply IH.
Qed.

(** The fuel of [replace] is enough: more fuel gives the same result. *)
Lemma replace_go_fuel open close cb n m s :
  open ≠ "" →
  (String.length s ≤ n)%nat → (String.length s ≤ m)%nat →
  replace_go open close cb n s = replace_go open close cb m s.
Proof.
  intros Hopen. revert m s. induction n as [|n IH]; intros m s Hn Hm.
  - destruct s; [|simpl in Hn; lia]. by destruct m.
  - destruct s as [|c s]; [by destruct m|].
    destruct m as [|m]; [simpl in Hm; lia|].
    simpl in Hn, Hm. cbn [replace_go].
    rewrite (IH m s) by lia.
    destruct (startsWith (String c s) open) eqn:Hstart; [|done].
    destruct (find_close close (skip (String.length open) (String c s)))
      as [[formula rest]|] eqn:Hfind; [|done].
    destruct (cb (open +:+ formula +:+ close) formula) as [html effs1] eqn:Hcb.
    assert (String.length rest ≤ String.length s)%nat.
    { apply find_close_Some in Hfind.
      destruct open as [|o open]; [done|]. simpl in Hfind.
      pose proof (skip_length (String.length open) s) as Hskip.
      rewrite Hfind, !length_append in Hskip. lia. }
    rewrite (IH m rest); [done|lia..].
Qed.

(** A callback that gives back every match leaves the text as it is. *)
Lemma replace_go_keep open close cb n s :
  (∀ matched formula, fst (cb matched formula) = matched) →
  fst (replace_go open close cb n s) = s.
Proof.
  intros Hcb. revert s. induction n as [|n IH]; intros s; [done|].
  destruct s as [|c s]; [done|]. cbn [replace_go].
  assert (Hunmatched :
    fst (let '(out, effs) := replace_go open close cb n s in (String c out, effs))
    = String c s).
  { specialize (IH s). destruct (replace_go open close cb n s). simpl in *. congruence. }
  destruct (startsWith (String c s) open) eqn:Hstart; [|done].
  destruct (find_close close (skip (String.length open) (String c s)))
    as [[formula rest]|] eqn:Hfind; [|done].
  specialize (Hcb (open +:+ formula +:+ close) formula). specialize (IH rest).
  destruct (cb (open +:+ formula +:+ close) formula) as [html effs1].
  destruct (replace_go open close cb n rest) as [out effs2].
  simpl in *. subst html out.
  apply startsWith_skip in Hstart. apply find_close_Some in Hfind.
  rewrite Hstart, Hfind. by rewrite !append_assoc.
Qed.

Lemma render_or_keep_failure katex displayMode msg matched formula :
  katex formula displayMode = None →
  fst (render_or_keep katex displayMode msg matched formula) = matched.
Proof. intros Hfail. unfold render_or_keep. by rewrite Hfail. Qed.

(** When every formula is rejected the text comes back as it was. *)
Lemma renderLatex_all_fail text :
  fst (renderLatex katex_failing (Some text)) = text.
Proof.
  unfold renderLatex. destruct (is_empty text) eqn:Hempty.
  - apply is_empty_true in Hempty. by subst.
  - unfold replace_display_dollars, replace_display_brackets,
      replace_inline_dollar, replace_inline_parens, replace.
    repeat match goal with
    | |- context [replace_go ?o ?c ?cb ?n ?s] =>
        let H := fresh "H" in
        pose proof (replace_go_keep o c cb n s (λ _ _, eq_refl)) as H;
        destruct (replace_go o c cb n s) as [? ?]; simpl in H; subst
    end.
    done.
Qed.

(** The example of the inline formula, for every renderer that rejects
    [x^2]: the text comes back as it was. *)
Lemma renderLatex_inline_rejected katex :
  katex "x^2" false = None →
  fst (renderLatex katex (Some "Result: $x^2$ done")) = "Result: $x^2$ done".
Proof.
  intros Hfail. vm_compute. by rewrite Hfail.
Qed.

(** The same example with a renderer that accepts [x^2]: the markup
    takes the place of the formula and the text around it stays. *)
Lemma renderLatex_inline_rendered :
  renderLatex katex_sample (Some "Result: $x^2$ done") =
  ("Result: <span>x^2</span> done", [KatexCall "x^2" false]).
Proof. by vm_compute. Qed.

Lemma has_unit_append c s t : has_unit c (s +:+ t) = has_unit c s || has_unit c t.
Proof.
  induction s as [|c' s IH]; [done|].
  rewrite append_String. simpl. by rewrite IH, orb_assoc.
Qed.

(** A text without the opening code unit has no match. *)
Lemma replace_go_no_open o open close cb n s :
  has_unit o s = false →
  replace_go (String o open) close cb n s = (s, []).
Proof.
  revert s. induction n as [|n IH]; intros s Hs; [done|].
  destruct s as [|c s]; [done|]. simpl in Hs.
  apply orb_false_iff in Hs as [Hc Hs]. cbn [replace_go startsWith].
  by rewrite Hc, (IH s Hs).
Qed.

(** The example with any renderer that accepts [x^2], as long as its
    markup has no backslash: the markup takes the place of the formula,
    the text before and after it stays, and the renderer is called once. *)
Lemma renderLatex_inline_rendered_any katex html :
  katex "x^2" false = Some html → has_unit "\" html = false →
  renderLatex katex (Some "Result: $x^2$ done") =
  ("Result: " +:+ html +:+ " done", [KatexCall "x^2" false]).
Proof.
  intros Hok Hhtml. unfold renderLatex. cbn [is_empty].
  assert (replace_display_dollars katex "Result: $x^2$ done"
          = ("Result: $x^2$ done", [])) as -> by by vm_compute.
  assert (replace_display_brackets katex "Result: $x^2$ done"
          = ("Result: $x^2$ done", [])) as -> by by vm_compute.
  assert (replace_inline_dollar katex "Result: $x^2$ done"
          = ("Result: " +:+ html +:+ " done", [KatexCall "x^2" false])) as ->
    by (vm_compute; by rewrite Hok).
  unfold replace_inline_parens, replace.
  rewrite replace_go_no_open; [done|].
  by rewrite !has_unit_append, Hhtml.
Qed.

(** The delimiters in their order: display mode for the first two,
    inline for the last two. *)
Lemma renderLatex_delimiters :
  renderLatex katex_sample (Some "a $$x$$ b \[y\] c $z$ d \(w\) e") =
  ("a <span>x</span> b <span>y</span> c <span>z</span> d <span>w</span> e",
   [KatexCall "x" true; KatexCall "y" true; KatexCall "z" false; KatexCall "w" false]).
Proof. by vm_compute. Qed.

(** C8 fails on the code for a formula between double dollars: when it is
    rejected its text is put back by the first replacement, but the
    replacement for single dollars then takes each pair of dollars for an
    empty inline formula and renders it, so the source of the formula
    does not come back unchanged.  The same formula between the three
    other delimiters comes back unchanged. *)
Theorem renderLatex_display_failure_rescanned :
  katex_sample "\frac{" true = None ∧
  renderLatex katex_sample (Some "$$\frac{$$") =
    ("<span></span>\frac{<span></span>",
     [KatexCall "\frac{" true; RenderError "Error rendering display math:";
      KatexCall "" false; KatexCall "" false]) ∧
  fst (renderLatex katex_sample (Some "\[\frac{\]")) = "\[\frac{\]" ∧
  fst (renderLatex katex_sample (Some "$\frac{$")) = "$\frac{$" ∧
  fst (renderLatex katex_sample (Some "\(\frac{\)")) = "\(\frac{\)".
Proof. repeat split; by vm_compute. Qed.

(** C10: for the empty text and for an absent text the result is the
    empty string and the renderer is not called, whatever renderer it is. *)
Theorem renderLatex_empty (katex : string → bool → option string) :
  renderLatex katex (Some "") = ("", []) ∧
  renderLatex katex None = ("", []).
Proof. by split. Qed.

(** ** Dataset loader *)

Lemma appendPapers_run papers s :
  appendPapers papers s = (set_allPapers (allPapers s ++ papers) s, inl ()).
Proof. done. Qed.

Lemma set_allPapers_append a b s :
  set_allPapers (allPapers (set_allPapers (allPapers s ++ a) s) ++ b)
    (set_allPapers (allPapers s ++ a) s) =
  set_allPapers (allPapers s ++ a ++ b) s.
Proof. unfold set_allPapers. simpl. by rewrite app_assoc. Qed.

Lemma set_allPapers_same s : set_allPapers (allPapers s ++ []) s = s.
Proof. unfold set_allPapers. rewrite app_nil_r. by destruct s. Qed.

Lemma for_each_append {A} (l : list A) (f : A → list Paper) (body : A → Exc unit) s :
  (∀ x s, body x s = (set_allPapers (allPapers s ++ f x) s, inl ())) →
  for_each l body s = (set_allPapers (allPapers s ++ (l ≫= f)) s, inl ()).
Proof.
  intros Hbody. revert s. induction l as [|x l IH]; intros s.
  - simpl. by rewrite set_allPapers_same.
  - cbn [for_each]. unfold mbind, Exc_bind, bind. rewrite Hbody, IH.
    by rewrite set_allPapers_append, bind_cons.
Qed.

Lemma processFirst_run data s :
  data ≠ JsonNull →
  processFirst data s =
  (set_allPapers (allPapers s ++ recordsFirst data) s, inl ()).
Proof.
  intros Hdata. destruct data as [papers_by_venue_year|papers| |]; try done;
    try (simpl; by rewrite set_allPapers_same).
  unfold processFirst, recordsFirst.
  apply for_each_append. intros [venue venueData] s'.
  apply for_each_append. by intros [year yearPapers] s''.
Qed.

Lemma processSecond_run data s :
  processSecond data s =
  (set_allPapers (allPapers s ++ recordsSecond data) s, inl ()).
Proof.
  destruct data; try done; simpl; by rewrite set_allPapers_same.
Qed.

(** The run of the loader, case by case. *)
Lemma loadPapersData_run fetch s :
  loadPapersData fetch s =
  let failed error :=
    console_push (ConsoleError "Failed to load papers data:" error) in
  match fetch url1 with
  | FetchRejected => (failed "TypeError: Failed to fetch" s, inl ())
  | JsonRejected => (failed "SyntaxError: Unexpected token" s, inl ())
  | Parsed JsonNull =>
      (failed "TypeError: Cannot read properties of null" s, inl ())
  | Parsed data1 =>
      let s1 := set_allPapers (allPapers s ++ recordsFirst data1) s in
      match fetch url2 with
      | FetchRejected => (failed "TypeError: Failed to fetch" s1, inl ())
      | JsonRejected => (failed "SyntaxError: Unexpected token" s1, inl ())
      | Parsed data2 =>
          let s2 := set_allPapers
                      (allPapers s ++ recordsFirst data1 ++ recordsSecond data2) s in
          (console_push
             (ConsoleLog "Total papers loaded:" (Z.of_nat (length (allPapers s2))))
             s2, inl ())
      end
  end.
Proof.
  unfold loadPapersData, try_catch, fetch_json, mbind, Exc_bind, bind.
  destruct (fetch url1) as [| |data1]; [done|done|].
  assert (data1 = JsonNull ∨ data1 ≠ JsonNull) as [->|Hdata1]
    by (destruct data1; auto); [done|].
  unfold ret. rewrite (processFirst_run data1 s Hdata1).
  destruct (fetch url2) as [| |data2].
  - by destruct data1.
  - by destruct data1.
  - rewrite processSecond_run, set_allPapers_append. by destruct data1.
Qed.

(** C2, as the code has it: no exception leaves the loader; a failure is
    caught and logged once; the failing document contributes no record,
    the records appended before the failure stay, and a document after
    the failing one is not loaded.  When both documents load, the
    collection grows by the records of the first and then of the second. *)
Theorem loadPapersData_failure (fetch : string → FetchResult) (s : State) :
  let s' := (loadPapersData fetch s).1 in
  (loadPapersData fetch s).2 = inl () ∧
  (first_fails (fetch url1) →
   allPapers s' = allPapers s ∧
   ∃ error, console s' =
            console s ++ [ConsoleError "Failed to load papers data:" error]) ∧
  (∀ data1, fetch url1 = Parsed data1 → data1 ≠ JsonNull →
            second_fails (fetch url2) →
   allPapers s' = allPapers s ++ recordsFirst data1 ∧
   ∃ error, console s' =
            console s ++ [ConsoleError "Failed to load papers data:" error]) ∧
  (∀ data1 data2, fetch url1 = Parsed data1 → data1 ≠ JsonNull →
                  fetch url2 = Parsed data2 →
   allPapers s' = allPapers s ++ recordsFirst data1 ++ recordsSecond data2 ∧
   console s' =
     console s ++ [ConsoleLog "Total papers loaded:"
                     (Z.of_nat (length (allPapers s')))]).
Proof.
  cbv zeta. rewrite loadPapersData_run. cbv zeta. unfold first_fails, second_fails.
  destruct (fetch url1) as [| |data1] eqn:Hfetch1.
  - split; [done|]. split; [intros _; split; [done|by eexists]|].
    split; [intros d [=]|intros d d' [=]].
  - split; [done|]. split; [intros _; split; [done|by eexists]|].
    split; [intros d [=]|intros d d' [=]].
  - assert (data1 = JsonNull ∨ data1 ≠ JsonNull) as [->|Hdata1]
      by (destruct data1; auto).
    + split; [done|]. split; [intros _; split; [done|by eexists]|].
      split; [intros d [= <-] Hd; done|intros d d' [= <-] Hd; done].
    + destruct (fetch url2) as [| |data2] eqn:Hfetch2.
      * split; [by destruct data1|].
        split; [intros [[=]|[[=]|[= ->]]]; done|].
        split; [|intros d d' _ _ [=]].
        intros d [= <-] _ _. destruct data1; (split; [done|by eexists]).
      * split; [by destruct data1|].
        split; [intros [[=]|[[=]|[= ->]]]; done|].
        split; [|intros d d' _ _ [=]].
        intros d [= <-] _ _. destruct data1; (split; [done|by eexists]).
      * split; [by destruct data1|].
        split; [intros [[=]|[[=]|[= ->]]]; done|].
        split; [intros d _ _ [[=]|[=]]|].
        intros d d' [= <-] _ [= <-]. by destruct data1.
Qed.

(** * Properties of the rest of the script *)

(** ** Facet index: years, venues, tags *)

Lemma Set_add_NoDup {A} `{EqDecision A} (x : A) set :
  NoDup set → NoDup (Set_add x set).
Proof.
  intros Hset. unfold Set_add. case_decide; [done|].
  apply NoDup_app. split; [done|]. split; [|apply NoDup_singleton].
  intros y Hy Hy'. apply list_elem_of_singleton in Hy'. by subst.
Qed.

Lemma Set_add_elem_of {A} `{EqDecision A} (y x : A) set :
  y ∈ Set_add x set ↔ y = x ∨ y ∈ set.
Proof.
  unfold Set_add. case_decide.
  - split; [by right | intros [->|?]; done].
  - rewrite elem_of_app, list_elem_of_singleton. tauto.
Qed.

(** A sorted list without repetitions is strictly sorted. *)
Lemma StronglySorted_strict {A} (R : A → A → Prop) l :
  StronglySorted R l → NoDup l → StronglySorted (λ x y, R x y ∧ x ≠ y) l.
Proof.
  induction 1 as [|x l Hl IH Hx]; intros Hnd; [constructor|].
  apply NoDup_cons in Hnd as [Hxl Hnd]. constructor; [by apply IH|].
  rewrite Forall_forall in Hx. apply Forall_forall. intros y Hy. split.
  - by apply Hx.
  - by intros ->.
Qed.

Lemma defaultCompare_le a b : defaultCompare a b ≤ 0 ↔ String.compare a b ≠ Gt.
Proof. unfold defaultCompare. destruct (String.compare a b); split; (lia || done). Qed.

Lemma sort_defaultCompare_strict l :
  NoDup l → StronglySorted (λ a b, String.compare a b = Lt) (sort defaultCompare l).
Proof.
  intros Hl.
  eapply StronglySorted_weaken;
    [|apply StronglySorted_strict;
      [apply (sort_sorted defaultCompare) | by rewrite sort_Permutation]].
  - intros a b [Hle Hne]. apply defaultCompare_le in Hle.
    destruct (String.compare a b) eqn:Hcmp; [|done|done].
    by apply String.compare_eq_iff in Hcmp.
  - intros a b. rewrite !defaultCompare_le. apply string_compare_le_total.
  - intros a b c. rewrite !defaultCompare_le. apply string_compare_le_trans.
Qed.

Lemma yearSet_fold acc papers :
  NoDup acc →
  NoDup (foldl (λ set paper, Set_add (year paper) set) acc papers) ∧
  ∀ y, y ∈ foldl (λ set paper, Set_add (year paper) set) acc papers ↔
       y ∈ acc ∨ ∃ paper, paper ∈ papers ∧ year paper = y.
Proof.
  revert acc. induction papers as [|paper papers IH]; intros acc Hacc.
  - split; [done|]. intros y. split; [by left|]. intros [?|(p & Hp & _)]; [done|].
    by apply elem_of_nil in Hp.
  - cbn [foldl]. destruct (IH (Set_add (year paper) acc)) as [Hnd Hin];
      [by apply Set_add_NoDup|].
    split; [done|]. intros y. rewrite Hin, Set_add_elem_of. split.
    + intros [[->|?]|(p & Hp & Hy)]; [right|by left|right].
      * exists paper. split; [apply list_elem_of_here | done].
      * exists p. split; [by apply list_elem_of_further | done].
    + intros [?|(p & Hp & Hy)]; [left; by right|].
      apply elem_of_cons in Hp as [->|Hp]; [left; by left|].
      right. by exists p.
Qed.

(** X1: the list of years holds every year of the collection once, the
    most recent first. *)
Theorem years_spec (s : State) :
  StronglySorted (λ a b, b < a) (years s) ∧
  NoDup (years s) ∧
  ∀ y, y ∈ years s ↔ ∃ paper, paper ∈ allPapers s ∧ year paper = y.
Proof.
  unfold years, yearSet.
  destruct (yearSet_fold [] (allPapers s) (NoDup_nil_2)) as [Hnd Hin].
  split; [|split].
  - eapply StronglySorted_weaken;
      [|apply StronglySorted_strict;
        [apply (sort_sorted (λ a b : Z, b - a)) | by rewrite sort_Permutation]].
    + intros a b [Hle Hne]. simpl in Hle. lia.
    + intros a b. simpl. lia.
    + intros a b c. simpl. lia.
  - by rewrite sort_Permutation.
  - intros y. rewrite sort_Permutation, Hin. split.
    + intros [Hy|?]; [by apply elem_of_nil in Hy | done].
    + by right.
Qed.

Lemma venueSet_fold acc papers :
  NoDup acc →
  NoDup (foldl (λ set paper,
                  if is_empty (venue paper) then set
                  else Set_add (venue paper) set) acc papers) ∧
  ∀ v, v ∈ foldl (λ set paper,
                    if is_empty (venue paper) then set
                    else Set_add (venue paper) set) acc papers ↔
       v ∈ acc ∨ ∃ paper, paper ∈ papers ∧ venue paper = v ∧ v ≠ "".
Proof.
  revert acc. induction papers as [|paper papers IH]; intros acc Hacc.
  - split; [done|]. intros v. split; [by left|]. intros [?|(p & Hp & _)]; [done|].
    by apply elem_of_nil in Hp.
  - cbn [foldl]. destruct (is_empty (venue paper)) eqn:Hempty.
    + destruct (IH acc Hacc) as [Hnd Hin]. split; [done|]. intros v.
      rewrite Hin. apply is_empty_true in Hempty. split.
      * intros [?|(p & Hp & Hv)]; [by left|right].
        exists p. split; [by apply list_elem_of_further | done].
      * intros [?|(p & Hp & Hv & Hne)]; [by left|].
        apply elem_of_cons in Hp as [->|Hp]; [congruence|].
        right. by exists p.
    + destruct (IH (Set_add (venue paper) acc)) as [Hnd Hin];
        [by apply Set_add_NoDup|].
      split; [done|]. intros v. rewrite Hin, Set_add_elem_of.
      apply is_empty_false in Hempty. split.
      * intros [[->|?]|(p & Hp & Hv)]; [right|by left|right].
        -- exists paper. split; [apply list_elem_of_here | done].
        -- exists p. split; [by apply list_elem_of_further | done].
      * intros [?|(p & Hp & Hv & Hne)]; [left; by right|].
        apply elem_of_cons in Hp as [->|Hp]; [left; by left|].
        right. by exists p.
Qed.

(** X2: the list of venues holds every venue of the collection that is
    not empty once, in rising order of the code units. *)
Theorem venues_spec (s : State) :
  StronglySorted (λ a b, String.compare a b = Lt) (venues s) ∧
  NoDup (venues s) ∧
  ∀ v, v ∈ venues s ↔ ∃ paper, paper ∈ allPapers s ∧ venue paper = v ∧ v ≠ "".
Proof.
  unfold venues, venueSet.
  destruct (venueSet_fold [] (allPapers s) (NoDup_nil_2)) as [Hnd Hin].
  split; [by apply sort_defaultCompare_strict|].
  split; [by rewrite sort_Permutation|].
  intros v. rewrite sort_Permutation, Hin. split.
  - intros [Hv|?]; [by apply elem_of_nil in Hv | done].
  - by right.
Qed.

Lemma tagSet_keywords_fold acc pieces :
  NoDup acc →
  NoDup (foldl (λ set keyword,
                  let trimmedKeyword := trim keyword in
                  if is_empty trimmedKeyword then set
                  else Set_add trimmedKeyword set) acc pieces) ∧
  ∀ t, t ∈ foldl (λ set keyword,
                    let trimmedKeyword := trim keyword in
                    if is_empty trimmedKeyword then set
                    else Set_add trimmedKeyword set) acc pieces ↔
       t ∈ acc ∨ ∃ piece, piece ∈ pieces ∧ t = trim piece ∧ t ≠ "".
Proof.
  revert acc. induction pieces as [|piece pieces IH]; intros acc Hacc.
  - split; [done|]. intros t. split; [by left|]. intros [?|(p & Hp & _)]; [done|].
    by apply elem_of_nil in Hp.
  - cbn [foldl]. cbv zeta. destruct (is_empty (trim piece)) eqn:Hempty.
    + destruct (IH acc Hacc) as [Hnd Hin]. split; [done|]. intros t.
      rewrite Hin. apply is_empty_true in Hempty. split.
      * intros [?|(p & Hp & Ht)]; [by left|right].
        exists p. split; [by apply list_elem_of_further | done].
      * intros [?|(p & Hp & Ht & Hne)]; [by left|].
        apply elem_of_cons in Hp as [->|Hp]; [congruence|].
        right. by exists p.
    + destruct (IH (Set_add (trim piece) acc)) as [Hnd Hin];
        [by apply Set_add_NoDup|].
      split; [done|]. intros t. rewrite Hin, Set_add_elem_of.
      apply is_empty_false in Hempty. split.
      * intros [[->|?]|(p & Hp & Ht)]; [right|by left|right].
        -- exists piece. split; [apply list_elem_of_here | done].
        -- exists p. split; [by apply list_elem_of_further | done].
      * intros [?|(p & Hp & Ht & Hne)]; [left; by right|].
        apply elem_of_cons in Hp as [->|Hp]; [left; by left|].
        right. by exists p.
Qed.

Lemma tagSet_fold acc papers :
  NoDup acc →
  NoDup (foldl (λ set paper,
                  foldl (λ set keyword,
                           let trimmedKeyword := trim keyword in
                           if is_empty trimmedKeyword then set
                           else Set_add trimmedKeyword set)
                        set (split "," (keywords paper))) acc papers) ∧
  ∀ t, t ∈ foldl (λ set paper,
                    foldl (λ set keyword,
                             let trimmedKeyword := trim keyword in
                             if is_empty trimmedKeyword then set
                             else Set_add trimmedKeyword set)
                          set (split "," (keywords paper))) acc papers ↔
       t ∈ acc ∨ ∃ paper piece, paper ∈ papers ∧
                   piece ∈ split "," (keywords paper) ∧ t = trim piece ∧ t ≠ "".
Proof.
  revert acc. induction papers as [|paper papers IH]; intros acc Hacc.
  - split; [done|]. intros t. split; [by left|].
    intros [?|(p & k & Hp & _)]; [done|]. by apply elem_of_nil in Hp.
  - cbn [foldl].
    destruct (tagSet_keywords_fold acc (split "," (keywords paper)) Hacc)
      as [Hnd1 Hin1].
    destruct (IH _ Hnd1) as [Hnd Hin]. split; [done|].
    intros t. rewrite Hin, Hin1. split.
    + intros [[?|(k & Hk & Ht)]|(p & k & Hp & Hk)]; [by left|right|right].
      * exists paper, k. split; [apply list_elem_of_here | done].
      * exists p, k. split; [by apply list_elem_of_further | done].
    + intros [?|(p & k & Hp & Hk)]; [left; by left|].
      apply elem_of_cons in Hp as [->|Hp]; [left; right; by exists k|].
      right. by exists p, k.
Qed.

(** X3: the older list of tags holds once, in rising order of the code
    units, every piece of a keywords string split at commas that is not
    empty after trimming; a keywords string without a comma gives one
    tag, the whole trimmed string, semicolons included. *)
Theorem tags_spec (s : State) :
  StronglySorted (λ a b, String.compare a b = Lt) (tags s) ∧
  NoDup (tags s) ∧
  (∀ t, t ∈ tags s ↔
        ∃ paper piece, paper ∈ allPapers s ∧
          piece ∈ split "," (keywords paper) ∧ t = trim piece ∧ t ≠ "") ∧
  (∀ paper, paper ∈ allPapers s → has_unit "," (keywords paper) = false →
            trim (keywords paper) ≠ "" → trim (keywords paper) ∈ tags s).
Proof.
  unfold tags, tagSet.
  destruct (tagSet_fold [] (allPapers s) (NoDup_nil_2)) as [Hnd Hin].
  assert (Hmem : ∀ t, t ∈ sort defaultCompare
              (foldl (λ set paper,
                  foldl (λ set keyword,
                           let trimmedKeyword := trim keyword in
                           if is_empty trimmedKeyword then set
                           else Set_add trimmedKeyword set)
                        set (split "," (keywords paper))) [] (allPapers s)) ↔
        ∃ paper piece, paper ∈ allPapers s ∧
          piece ∈ split "," (keywords paper) ∧ t = trim piece ∧ t ≠ "").
  { intros t. rewrite sort_Permutation, Hin. split.
    - intros [Ht|?]; [by apply elem_of_nil in Ht | done].
    - by right. }
  split; [by apply sort_defaultCompare_strict|].
  split; [by rewrite sort_Permutation|].
  split; [exact Hmem|].
  intros paper Hpaper Hcomma Hne. apply Hmem.
  exists paper, (keywords paper). split; [done|]. split; [|done].
  assert (Hsplit : ∀ k, has_unit "," k = false → split "," k = [k]).
  { clear. induction k as [|c k IH]; [done|]. cbn [has_unit split].
    intros [Hc Hk]%orb_false_iff. by rewrite Ascii.eqb_sym, Hc, (IH Hk). }
  rewrite (Hsplit _ Hcomma). apply list_elem_of_here.
Qed.

(** ** Display of a tag *)









(** ** Selection *)


(** ** Tag toggle, from any state *)







(** ** Page buttons *)

Lemma showPageButton_true page s :
  showPageButton page s = true ↔
  page = 1 ∨ page = totalPages s ∨ currentPage s - 2 ≤ page ≤ currentPage s + 2.
Proof.
  unfold showPageButton.
  destruct (page =? 1) eqn:H1; [apply Z.eqb_eq in H1; tauto|].
  destruct (page =? totalPages s) eqn:H2; [apply Z.eqb_eq in H2; tauto|].
  destruct (page =? currentPage s) eqn:H3; cbn [orb];
    [apply Z.eqb_eq in H3; split; [intros _; right; right; lia | done]|].
  apply Z.eqb_neq in H1, H2, H3.
  destruct (currentPage s - 3 <? page) eqn:H4;
    destruct (page <? currentPage s + 3) eqn:H5; cbn [andb];
    try apply Z.ltb_lt in H4; try apply Z.ltb_ge in H4;
    try apply Z.ltb_lt in H5; try apply Z.ltb_ge in H5;
    split; try done; try (intros _; right; right; lia); lia.
Qed.

Lemma shownPages_elem_of page s :
  page ∈ shownPages s ↔
  1 ≤ page ≤ totalPages s ∧
  (page = 1 ∨ page = totalPages s ∨ currentPage s - 2 ≤ page ≤ currentPage s + 2).
Proof.
  unfold shownPages.
  rewrite list_elem_of_In, filter_In, <- list_elem_of_In, elem_of_seqZ,
    showPageButton_true. lia.
Qed.

(** X7: with the current page among the pages, the first, the last and
    the current page and the pages at most two away from it have a
    button, and no more than seven buttons show.  With more than seven
    pages the left (right) dots show exactly when a page between the
    first (last) and the current one has no button; with seven pages or
    fewer no dots show, though pages may lack a button. *)
Theorem page_buttons_spec (s : State) :
  1 ≤ currentPage s ≤ totalPages s →
  (1 ∈ shownPages s ∧ totalPages s ∈ shownPages s ∧ currentPage s ∈ shownPages s) ∧
  (length (shownPages s) ≤ 7)%nat ∧
  (7 < totalPages s →
   (showEllipsis "left" s = true ↔
    ∃ page, 1 < page < currentPage s ∧ page ∉ shownPages s) ∧
   (showEllipsis "right" s = true ↔
    ∃ page, currentPage s < page < totalPages s ∧ page ∉ shownPages s)) ∧
  (totalPages s ≤ 7 →
   showEllipsis "left" s = false ∧ showEllipsis "right" s = false).
Proof.
  intros Hpage. split; [|split; [|split]].
  - rewrite !shownPages_elem_of. lia.
  - transitivity (length [1; totalPages s; currentPage s - 2; currentPage s - 1;
                          currentPage s; currentPage s + 1; currentPage s + 2]);
      [|done].
    apply submseteq_length, NoDup_submseteq.
    + unfold shownPages. apply NoDup_ListNoDup, List.NoDup_filter.
      apply NoDup_ListNoDup, NoDup_seqZ.
    + intros page [_ Hshown]%shownPages_elem_of.
      rewrite !elem_of_cons, elem_of_nil. lia.
  - intros Hmany. unfold showEllipsis.
    rewrite (proj2 (Z.leb_gt (totalPages s) 7)) by done. cbn [decide].
    split.
    + rewrite decide_True by done. rewrite Z.ltb_lt. split.
      * intros Hcur. exists 2. rewrite shownPages_elem_of. lia.
      * intros (page & Hrange & Hhidden). rewrite shownPages_elem_of in Hhidden. lia.
    + rewrite decide_False by done. rewrite decide_True by done.
      rewrite Z.ltb_lt. split.
      * intros Hcur. exists (totalPages s - 1). rewrite shownPages_elem_of. lia.
      * intros (page & Hrange & Hhidden). rewrite shownPages_elem_of in Hhidden. lia.
  - intros Hfew. unfold showEllipsis.
    by rewrite (proj2 (Z.leb_le (totalPages s) 7)) by done.
Qed.

(** ** Navigation *)

Lemma set_currentPage_same s : set_currentPage (currentPage s) s = s.
Proof. by destruct s. Qed.

Lemma set_currentPage_twice a b s :
  set_currentPage a (set_currentPage b s) = set_currentPage a s.
Proof. done. Qed.

Lemma totalPages_set_currentPage page s :
  totalPages (set_currentPage page s) = totalPages s.
Proof. by apply totalPages_eq. Qed.

(** X8: the navigation stops at the ends and its steps undo each other:
    on the last page (or beyond) [nextPage] does nothing, on the first
    (or below) [prevPage] does nothing; otherwise a step forward and a
    step back, in either order, give back the state, and [goToPage] to a
    page in range shows the window of that page. *)
Theorem navigation_steps (s : State) (page : Z) :
  (totalPages s ≤ currentPage s → nextPage s = s) ∧
  (currentPage s ≤ 1 → prevPage s = s) ∧
  (1 ≤ currentPage s < totalPages s → prevPage (nextPage s) = s) ∧
  (1 < currentPage s ≤ totalPages s → nextPage (prevPage s) = s) ∧
  (1 ≤ page ≤ totalPages s →
   currentPage (goToPage page s) = page ∧
   paginatedPapers (goToPage page s) =
     page_window (filteredPapers s) page (papersPerPage s)).
Proof.
  split; [|split; [|split; [|split]]].
  - intros Hlast. unfold nextPage.
    by rewrite (proj2 (Z.ltb_ge (currentPage s) (totalPages s))).
  - intros Hfirst. unfold prevPage.
    by rewrite (proj2 (Z.ltb_ge 1 (currentPage s))).
  - intros Hmid. unfold nextPage.
    rewrite (proj2 (Z.ltb_lt (currentPage s) (totalPages s))) by lia.
    unfold prevPage. cbn [currentPage set_currentPage].
    rewrite (proj2 (Z.ltb_lt 1 (currentPage s + 1))) by lia.
    rewrite set_currentPage_twice, Z.add_simpl_r. apply set_currentPage_same.
  - intros Hmid. unfold prevPage.
    rewrite (proj2 (Z.ltb_lt 1 (currentPage s))) by lia.
    unfold nextPage. rewrite totalPages_set_currentPage.
    cbn [currentPage set_currentPage].
    rewrite (proj2 (Z.ltb_lt (currentPage s - 1) (totalPages s))) by lia.
    rewrite set_currentPage_twice, Z.sub_add. apply set_currentPage_same.
  - intros Hpage. unfold goToPage.
    rewrite (proj2 (Z.leb_le 1 page)), (proj2 (Z.leb_le page (totalPages s))) by lia.
    cbn [andb]. split; [done|]. unfold paginatedPapers.
    by rewrite (filteredPapers_pure (set_currentPage page s) s).
Qed.

(** X9: the jump to a typed page.  When the text is no number or a
    number outside the pages, the current page stays, the field is
    emptied and one notice with the page count is shown; for a page in
    range the page is shown, the field is emptied and no notice is
    shown.  The filter and the page size are never changed. *)
Theorem goToInputPage_spec (pageNumber : option Z) (s : State) :
  let valid := ∃ n, pageNumber = Some n ∧ 1 ≤ n ≤ totalPages s in
  let s' := goToInputPage pageNumber s in
  inputPage s' = "" ∧
  filterInputs s' = filterInputs s ∧ papersPerPage s' = papersPerPage s ∧
  (valid → pageNumber = Some (currentPage s') ∧ alerts s' = alerts s) ∧
  (¬ valid → currentPage s' = currentPage s ∧
             alerts s' = alerts s ++ [totalPages s]).
Proof.
  cbv zeta. unfold goToInputPage. destruct pageNumber as [n|].
  - destruct ((1 <=? n) && (n <=? totalPages s)) eqn:Hguard.
    + apply andb_true_iff in Hguard as [H1%Z.leb_le H2%Z.leb_le].
      split; [done|]. split; [done|]. split; [done|]. split; [done|].
      intros Hinvalid. exfalso. apply Hinvalid. by exists n.
    + apply andb_false_iff in Hguard.
      split; [done|]. split; [done|]. split; [done|]. split; [|done].
      intros (n' & [= <-] & Hn).
      destruct Hguard as [H%Z.leb_gt|H%Z.leb_gt]; lia.
  - split; [done|]. split; [done|]. split; [done|]. split; [|done].
    by intros (n & [=] & _).
Qed.

(** ** The page shown *)

Lemma paginatedPapers_window s :
  1 ≤ currentPage s → 0 ≤ papersPerPage s →
  paginatedPapers s =
  take (Z.to_nat (papersPerPage s))
    (drop (Z.to_nat ((currentPage s - 1) * papersPerPage s)) (filteredPapers s)).
Proof.
  intros Hpage Hsize. unfold paginatedPapers, page_window. cbv zeta.
  apply slice_window; nia.
Qed.

(** X10: in a session the page shown is never empty while papers match
    the filter, and it never holds more papers than the page size. *)
Theorem shown_page_not_empty (s : State) :
  reachable s →
  (length (paginatedPapers s) ≤ Z.to_nat (papersPerPage s))%nat ∧
  (filteredPapers s ≠ [] → paginatedPapers s ≠ []).
Proof.
  intros Hs.
  pose proof (reachable_in_range s Hs) as Hrange.
  pose proof (reachable_papersPerPage s Hs) as Hsize.
  unfold page_in_range in Hrange.
  rewrite paginatedPapers_window by lia. split.
  - rewrite length_take. lia.
  - intros Hmatch Hempty. apply (f_equal length) in Hempty.
    rewrite length_take, length_drop in Hempty. simpl in Hempty.
    assert (0 < Z.of_nat (length (filteredPapers s))) as Hlen
      by (destruct (filteredPapers s); [done | simpl; lia]).
    pose proof (Math_ceil_div_bounds (Z.of_nat (length (filteredPapers s)))
                  (papersPerPage s) Hsize) as Hceil.
    fold (page_count (Z.of_nat (length (filteredPapers s))) (papersPerPage s)) in Hceil.
    fold (totalPages s) in Hceil.
    assert (1 ≤ totalPages s) by (by apply page_count_positive).
    assert ((currentPage s - 1) * papersPerPage s
            < Z.of_nat (length (filteredPapers s))) by nia.
    lia.
Qed.

(** X11: the number written on a card is the place of its paper in the
    filtered list, counted from 1. *)
Theorem paperNumber_spec (s : State) (index : nat) (paper : Paper) :
  1 ≤ currentPage s → 0 ≤ papersPerPage s →
  paginatedPapers s !! index = Some paper →
  1 ≤ paperNumber s index ≤ Z.of_nat (length (filteredPapers s)) ∧
  filteredPapers s !! Z.to_nat (paperNumber s index - 1) = Some paper.
Proof.
  intros Hpage Hsize. rewrite paginatedPapers_window by done.
  intros [Hlookup Hindex]%lookup_take_Some. rewrite lookup_drop in Hlookup.
  unfold paperNumber.
  replace (Z.to_nat ((currentPage s - 1) * papersPerPage s + Z.of_nat index + 1 - 1))
    with (Z.to_nat ((currentPage s - 1) * papersPerPage s) + index)%nat by nia.
  split; [|done]. apply lookup_lt_Some in Hlookup. nia.
Qed.

(** ** The filter and its switches *)

Lemma filteredPapers_elem_of s paper :
  paper ∈ filteredPapers s ↔ paper ∈ allPapers s ∧ paperMatches s paper = true.
Proof. unfold filteredPapers. by rewrite !list_elem_of_In, filter_In. Qed.

Lemma filter_all {A} (f : A → bool) l :
  (∀ x, x ∈ l → f x = true) → List.filter f l = l.
Proof.
  induction l as [|x l IH]; intros Hall; [done|]. simpl.
  rewrite (Hall x) by apply list_elem_of_here. f_equal. apply IH.
  intros y Hy. by apply Hall, list_elem_of_further.
Qed.

Lemma filter_none {A} (f : A → bool) l :
  (∀ x, x ∈ l → f x = false) → List.filter f l = [].
Proof.
  induction l as [|x l IH]; intros Hnone; [done|]. simpl.
  rewrite (Hnone x) by apply list_elem_of_here. apply IH.
  intros y Hy. by apply Hnone, list_elem_of_further.
Qed.

Lemma filter_sublist_impl {A} (f g : A → bool) l :
  (∀ x, f x = true → g x = true) → sublist (List.filter f l) (List.filter g l).
Proof.
  intros Himpl. induction l as [|x l IH]; simpl; [constructor|].
  destruct (f x) eqn:Hf.
  - rewrite (Himpl x Hf). by constructor.
  - destruct (g x); [by constructor | done].
Qed.

Lemma filter_length_split {A} (f g h : A → bool) l :
  (∀ x, f x = g x || h x) → (∀ x, g x && h x = false) →
  length (List.filter f l) =
  (length (List.filter g l) + length (List.filter h l))%nat.
Proof.
  intros Hf Hgh. induction l as [|x l IH]; [done|]. simpl.
  rewrite Hf. specialize (Hgh x).
  destruct (g x), (h x); simpl in *; try done; lia.
Qed.

(** X12: when the text that is looked for (the query, lower-cased and
    trimmed) is empty and nothing is selected, the whole collection is
    shown.  The button that clears the filters leaves the code-only
    switch as it is: on a host for which the empty query stays empty,
    the list is then the collection when the switch is off, and the
    papers with a code link that is not empty after trimming when it is
    on. *)
Theorem clearAllFilters_spec (s : State) :
  trim (toLowerCase "") = "" →
  (query s = "" → no_selection s → filteredPapers s = allPapers s) ∧
  showOnlyWithCode (clearAllFilters s) = showOnlyWithCode s ∧
  (showOnlyWithCode s = false → filteredPapers (clearAllFilters s) = allPapers s) ∧
  (showOnlyWithCode s = true →
   ∀ paper, paper ∈ filteredPapers (clearAllFilters s) ↔
            paper ∈ allPapers s ∧ trim (github_links paper) ≠ "").
Proof.
  intros Hempty.
  assert (Hquery' : query (clearAllFilters s) = "") by exact Hempty.
  split; [|split; [done|split]].
  - intros Hquery (Hyear & Hvenue & Hsel & Hexc & Hcode).
    unfold filteredPapers. apply filter_all. intros paper _.
    apply paperMatches_spec. unfold matches_in_words.
    rewrite Hquery, Hyear, Hvenue, Hsel, Hexc, Hcode.
    repeat split; try (by left); intros t Ht; by apply not_elem_of_empty in Ht.
  - intros Hcode. unfold filteredPapers. apply filter_all. intros paper _.
    apply paperMatches_spec. unfold matches_in_words. rewrite Hquery'.
    simpl. rewrite Hcode.
    repeat split; try (by left); intros t Ht; by apply not_elem_of_empty in Ht.
  - intros Hcode paper. rewrite filteredPapers_elem_of, paperMatches_spec.
    unfold matches_in_words. rewrite Hquery'. simpl. rewrite Hcode.
    split.
    + intros (Hin & _ & _ & _ & _ & _ & [?|Hlink]); [done|]. by split.
    + intros [Hin Hlink]. split; [done|].
      repeat split; try (by left); try (by right);
        intros t Ht; by apply not_elem_of_empty in Ht.
Qed.

Lemma forall_elem_of_add (P : string → Prop) (X : gset string) x :
  (∀ t, t ∈ X ∪ {[x]} → P t) ↔ (∀ t, t ∈ X → P t) ∧ P x.
Proof.
  split.
  - intros H. split; [intros t Ht|]; apply H; set_solver.
  - intros [HX Hx] t [Ht| ->%elem_of_singleton]%elem_of_union; auto.
Qed.

Lemma paperMatches_include tag s paper :
  paperMatches (set_selectedTags (selectedTags s ∪ {[tag]}) s) paper =
  paperMatches s paper && bool_decide (toLowerCase tag ∈ paperTags paper).
Proof.
  apply Bool.eq_iff_eq_true.
  rewrite andb_true_iff, !paperMatches_spec, paperTags_has_tag.
  unfold matches_in_words. simpl. rewrite forall_elem_of_add. tauto.
Qed.

Lemma paperMatches_exclude tag s paper :
  paperMatches
    (set_excludedTags (excludedTags s ∪ {[tag]})
       (set_selectedTags (selectedTags s) s)) paper =
  paperMatches s paper && negb (bool_decide (toLowerCase tag ∈ paperTags paper)).
Proof.
  apply Bool.eq_iff_eq_true.
  rewrite andb_true_iff, negb_true_iff, <- not_true_iff_false,
    !paperMatches_spec, paperTags_has_tag.
  unfold matches_in_words. simpl.
  rewrite (forall_elem_of_add (λ t, ¬ has_tag t paper)). tauto.
Qed.

(** X13: a neutral tag splits the list shown in two.  One click on it
    shows the papers of the list that carry the tag, a second click those
    that do not; both are sub-lists of the list shown before, and their
    lengths add up to its length. *)
Theorem tag_filter_split (tag : string) (s : State) :
  tag ∉ selectedTags s → tag ∉ excludedTags s →
  let including := filteredPapers (toggleTagFilter tag s) in
  let excluding := filteredPapers (toggleTagFilter tag (toggleTagFilter tag s)) in
  sublist including (filteredPapers s) ∧
  sublist excluding (filteredPapers s) ∧
  (∀ paper, paper ∈ including ↔ paper ∈ filteredPapers s ∧ has_tag tag paper) ∧
  (∀ paper, paper ∈ excluding ↔ paper ∈ filteredPapers s ∧ ¬ has_tag tag paper) ∧
  length (filteredPapers s) = (length including + length excluding)%nat.
Proof.
  intros Hsel Hexc. cbv zeta.
  rewrite (toggleTagFilter_twice tag s Hsel Hexc),
    (toggleTagFilter_neutral tag s Hsel Hexc).
  unfold filteredPapers. simpl.
  split; [|split; [|split; [|split]]].
  - apply filter_sublist_impl. intros paper.
    rewrite paperMatches_include, andb_true_iff. tauto.
  - apply filter_sublist_impl. intros paper.
    rewrite paperMatches_exclude, andb_true_iff. tauto.
  - intros paper. rewrite !list_elem_of_In, !filter_In, paperMatches_include,
      andb_true_iff, paperTags_has_tag. tauto.
  - intros paper. rewrite !list_elem_of_In, !filter_In, paperMatches_exclude,
      andb_true_iff, negb_true_iff, <- not_true_iff_false, paperTags_has_tag.
    tauto.
  - apply filter_length_split.
    + intros paper. rewrite paperMatches_include, paperMatches_exclude.
      destruct (paperMatches s paper), (bool_decide _); done.
    + intros paper. rewrite paperMatches_include, paperMatches_exclude.
      destruct (paperMatches s paper), (bool_decide _); done.
Qed.

(** X14: in a session no tag is both included and excluded: the
    toggle, the two buttons that remove a tag from the active filters
    and the button that clears the filters keep the two sets apart, and
    nothing else writes them. *)
Theorem reachable_tags_disjoint (s : State) :
  reachable s → selectedTags s ## excludedTags s.
Proof.
  induction 1 as [|e s Hvalid Hreach IH]; [simpl; set_solver|].
  assert (Hhandle : selectedTags (handle e s) ## excludedTags (handle e s)).
  { destruct e as [q| |y|v|t|t|t| | |papers|text|page| | |count|pageNumber];
      simpl; try done.
    - by apply toggleTagFilter_disjoint.
    - set_solver.
    - set_solver.
    - unfold goToPage. by destruct (_ && _).
    - unfold prevPage. by destruct (_ <? _).
    - unfold nextPage. by destruct (_ <? _).
    - unfold goToInputPage. destruct pageNumber as [n|]; [|done].
      by destruct (_ && _). }
  unfold dispatch, watchEffect_resetPage. by case_decide.
Qed.

Lemma occurrences_elem_of t l : 0 < occurrences t l ↔ t ∈ l.
Proof.
  unfold occurrences. split.
  - intros Hpos. destruct (filter (λ x, x = t) l) as [|x rest] eqn:Hf; [simpl in Hpos; lia|].
    assert (Hx : x ∈ filter (λ x, x = t) l) by (rewrite Hf; apply list_elem_of_here).
    apply list_elem_of_filter in Hx as [-> Hx]. done.
  - intros Hin.
    assert (Ht : t ∈ filter (λ x, x = t) l) by by apply list_elem_of_filter.
    destruct (filter (λ x, x = t) l); [by apply elem_of_nil in Ht|simpl; lia].
Qed.

Lemma tag_occurrences_elem_of t papers :
  t ∈ tag_occurrences papers ↔
  t ≠ "" ∧ ∃ paper, paper ∈ papers ∧ t ∈ paperTags paper.
Proof.
  unfold tag_occurrences, paperTags. rewrite list_elem_of_bind. split.
  - intros (paper & Ht & Hpaper).
    apply list_elem_of_In, filter_In in Ht as [Ht Hne].
    apply negb_true_iff, is_empty_false in Hne.
    split; [done|]. exists paper. split; [done|]. by apply list_elem_of_In.
  - intros (Hne & paper & Hpaper & Ht). exists paper. split; [|done].
    apply list_elem_of_In, filter_In. split; [by apply list_elem_of_In|].
    by apply negb_true_iff, is_empty_false.
Qed.

(** A paper that carries the tag adds at least one to its count. *)
Lemma tagged_papers_le_occurrences t papers :
  t ≠ "" →
  Z.of_nat (length (List.filter (λ paper, bool_decide (t ∈ paperTags paper)) papers))
  ≤ occurrences t (tag_occurrences papers).
Proof.
  intros Hne. unfold occurrences.
  induction papers as [|paper papers IH]; [done|].
  unfold tag_occurrences in *. rewrite bind_cons, filter_app, length_app.
  cbn [List.filter]. destruct (bool_decide _) eqn:Hin; [|lia].
  apply bool_decide_eq_true in Hin.
  assert (Hone : 0 < occurrences t
            (List.filter (λ t, negb (is_empty t))
               ((λ k, toLowerCase (trim k)) <$> split ";" (keywords paper)))).
  { apply occurrences_elem_of, list_elem_of_In, filter_In.
    split; [by apply list_elem_of_In|]. by apply negb_true_iff, is_empty_false. }
  unfold occurrences in Hone. simpl length. lia.
Qed.

(** X15: a chip of the tag facet and the filter agree.  The tag of a
    chip is a lower case; on a host for which it is its own lower case,
    and with nothing else selected, a click on a chip with count [n]
    shows the papers that carry the tag: at least one, and at most [n]
    (a paper that lists the tag twice is counted twice and shown
    once). *)
Theorem tag_chip_filter (s : State) (t : string) (n : Z) :
  mkTagCount t n ∈ rankedTagCounts s → toLowerCase t = t →
  query s = "" → no_selection s →
  let shown := filteredPapers (toggleTagFilter t s) in
  (∀ paper, paper ∈ shown ↔ paper ∈ allPapers s ∧ has_tag t paper) ∧
  1 ≤ Z.of_nat (length shown) ≤ n.
Proof.
  intros Hchip Hlower Hquery Hnone shown.
  pose proof Hnone as (_ & _ & Hsel & Hexc & _).
  apply rankedTagCounts_elem_of in Hchip as [Hpos ->].
  apply occurrences_elem_of, tag_occurrences_elem_of in Hpos
    as (Hne & tagged & Htagged & Ht).
  assert (Hshown : shown =
    List.filter (λ paper, bool_decide (t ∈ paperTags paper)) (allPapers s)).
  { unfold shown. rewrite toggleTagFilter_neutral
      by (rewrite ?Hsel, ?Hexc; apply not_elem_of_empty).
    unfold filteredPapers. simpl. apply filter_ext. intros paper.
    rewrite paperMatches_include, Hlower.
    replace (paperMatches s paper) with true; [done|]. symmetry.
    apply paperMatches_spec. destruct Hnone as (Hy & Hv & _ & _ & Hc).
    unfold matches_in_words. rewrite Hquery, Hy, Hv, Hsel, Hexc, Hc.
    repeat split; try (by left); intros t' Ht'; by apply not_elem_of_empty in Ht'. }
  assert (Hmem : ∀ paper, paper ∈ shown ↔ paper ∈ allPapers s ∧ has_tag t paper).
  { intros paper.
    by rewrite Hshown, !list_elem_of_In, filter_In, <- paperTags_has_tag, Hlower. }
  split; [done|]. split.
  - assert (Hin : tagged ∈ shown).
    { apply Hmem. split; [done|]. apply paperTags_has_tag. rewrite Hlower.
      by apply bool_decide_eq_true. }
    destruct shown; [by apply elem_of_nil in Hin|simpl; lia].
  - rewrite Hshown. by apply tagged_papers_le_occurrences.
Qed.

(** ** A suggestion that is chosen *)





(** ** Formulas *)

Lemma includes_no_unit o q s : has_unit o s = false → includes s (String o q) = false.
Proof.
  induction s as [|c s IH]; [done|]. cbn [has_unit includes startsWith].
  intros [Hc Hs]%orb_false_iff. by rewrite Hc, (IH Hs).
Qed.

Lemma includes_append_no_unit o q pre t :
  has_unit o pre = false →
  includes (pre +:+ t) (String o q) = includes t (String o q).
Proof.
  induction pre as [|c pre IH]; [done|]. cbn [has_unit].
  intros [Hc Hpre]%orb_false_iff. rewrite append_String.
  cbn [includes startsWith]. by rewrite Hc, (IH Hpre).
Qed.

Lemma includes_step o o' q t :
  head_is o' t = false →
  includes (String o t) (String o (String o' q)) = includes t (String o (String o' q)).
Proof.
  intros Hhead. cbn [includes startsWith]. rewrite Ascii.eqb_refl.
  destruct t as [|c t]; [done|]. cbn [head_is] in Hhead.
  cbn [startsWith]. by rewrite Hhead.
Qed.

Lemma head_is_no_unit o t : has_unit o t = false → head_is o t = false.
Proof. destruct t; [done|]. cbn [has_unit head_is]. by intros [? _]%orb_false_iff. Qed.

Lemma head_is_append o s t : s ≠ "" → head_is o (s +:+ t) = head_is o s.
Proof. by destruct s. Qed.

Lemma is_empty_append s t : is_empty (s +:+ t) = is_empty s && is_empty t.
Proof. by destruct s. Qed.

Lemma skip_append s t : skip (String.length s) (s +:+ t) = t.
Proof. induction s as [|c s IH]; [done|]. by rewrite append_String. Qed.

Lemma find_close_unfold close s :
  find_close close s =
  if startsWith s close then Some (EmptyString, skip (String.length close) s)
  else match s with
       | EmptyString => None
       | String c s' =>
           match find_close close s' with
           | Some (formula, rest) => Some (String c formula, rest)
           | None => None
           end
       end.
Proof. by destruct s. Qed.

(** The lazy group stops at the first closing delimiter. *)
Lemma find_close_first k close' formula post :
  has_unit k formula = false →
  find_close (String k close') (formula +:+ String k close' +:+ post) =
  Some (formula, post).
Proof.
  induction formula as [|c formula IH]; intros Hformula.
  - rewrite append_empty_l, find_close_unfold.
    assert (Hstart : startsWith (String k close' +:+ post) (String k close') = true)
      by (apply startsWith_spec; by exists post).
    by rewrite Hstart, skip_append.
  - cbn [has_unit] in Hformula. apply orb_false_iff in Hformula as [Hc Hformula].
    rewrite append_String. cbn [find_close startsWith].
    by rewrite Hc, (IH Hformula).
Qed.

(** A text in which the opening delimiter does not occur has no match. *)
Lemma replace_go_not_included open close cb n s :
  includes s open = false → replace_go open close cb n s = (s, []).
Proof.
  revert s. induction n as [|n IH]; intros s Hs; [done|].
  destruct s as [|c s]; [done|]. cbn [includes] in Hs.
  apply orb_false_iff in Hs as [Hstart Hs]. cbn [replace_go].
  by rewrite Hstart, (IH s Hs).
Qed.

(** One formula between its delimiters, in a text that has the opening
    code unit nowhere else: the callback is called once, what it gives
    takes the place of the formula and its delimiters. *)
Lemma replace_go_single o open' k close' cb pre formula post n :
  has_unit o pre = false → has_unit k formula = false → has_unit o post = false →
  (String.length pre < n)%nat →
  replace_go (String o open') (String k close') cb n
    (pre +:+ String o open' +:+ formula +:+ String k close' +:+ post) =
  let '(html, effs) := cb (String o open' +:+ formula +:+ String k close') formula in
  (pre +:+ html +:+ post, effs).
Proof.
  intros Hpre Hformula Hpost. revert n.
  induction pre as [|c pre IH]; intros n Hn.
  - destruct n as [|n]; [simpl in Hn; lia|]. rewrite !append_empty_l.
    set (rest := formula +:+ String k close' +:+ post).
    assert (Hstart : startsWith (String o open' +:+ rest) (String o open') = true)
      by (apply startsWith_spec; by exists rest).
    assert (Hskip : skip (String.length (String o open')) (String o open' +:+ rest)
                    = rest) by apply skip_append.
    rewrite append_String in *. cbn [replace_go].
    rewrite Hstart, Hskip. unfold rest. rewrite (find_close_first _ _ _ _ Hformula).
    rewrite (replace_go_no_open _ _ _ _ _ _ Hpost).
    destruct (cb _ formula) as [html effs]. by rewrite app_nil_r.
  - destruct n as [|n]; [simpl in Hn; lia|].
    cbn [has_unit] in Hpre. apply orb_false_iff in Hpre as [Hc Hpre].
    rewrite append_String. cbn [replace_go startsWith]. rewrite Hc.
    rewrite (IH Hpre n) by (simpl in Hn; lia).
    by destruct (cb _ formula) as [html effs].
Qed.

Lemma replace_single o open' k close' cb pre formula post :
  has_unit o pre = false → has_unit k formula = false → has_unit o post = false →
  replace (String o open') (String k close') cb
    (pre +:+ String o open' +:+ formula +:+ String k close' +:+ post) =
  let '(html, effs) := cb (String o open' +:+ formula +:+ String k close') formula in
  (pre +:+ html +:+ post, effs).
Proof.
  intros Hpre Hformula Hpost. unfold replace.
  apply replace_go_single; try done. rewrite length_append, append_String. simpl. lia.
Qed.

Lemma replace_plain o open' close cb s :
  has_unit o s = false → replace (String o open') close cb s = (s, []).
Proof. apply replace_go_no_open. Qed.

Lemma replace_not_included open close cb s :
  includes s open = false → replace open close cb s = (s, []).
Proof. apply replace_go_not_included. Qed.

(** X17: a text without a dollar sign and without a backslash comes
    back as it is, and the renderer is not called, whatever the renderer
    does. *)
Theorem renderLatex_plain_text (katex : string → bool → option string) (text : string) :
  plainText text → renderLatex katex (Some text) = (text, []).
Proof.
  intros [Hdollar Hbackslash]. unfold renderLatex.
  destruct (is_empty text) eqn:Hempty; [by apply is_empty_true in Hempty as ->|].
  unfold replace_display_dollars, replace_display_brackets,
    replace_inline_dollar, replace_inline_parens.
  rewrite (replace_plain "$" "$" _ _ text Hdollar).
  rewrite (replace_plain "\" "[" _ _ text Hbackslash).
  rewrite (replace_plain "$" "" _ _ text Hdollar).
  by rewrite (replace_plain "\" "(" _ _ text Hbackslash).
Qed.

Lemma plainText_join pre html post c :
  has_unit c pre = false → has_unit c html = false → has_unit c post = false →
  has_unit c (pre +:+ html +:+ post) = false.
Proof. intros Hpre Hhtml Hpost. by rewrite !has_unit_append, Hpre, Hhtml, Hpost. Qed.

(** X18: one formula in a text that is plain otherwise, between any of
    the four pairs of delimiters: when the renderer accepts it (with
    markup that is plain itself), the markup takes the place of the
    formula and its delimiters, the text before and after it stays, and
    the renderer is called once, in the mode of the delimiters. *)
Theorem renderLatex_single_formula (katex : string → bool → option string)
    (open close : string) (mode : bool) (pre formula post html : string) :
  (open, close, mode) ∈ delimiters →
  plainText pre → plainText formula → plainText post → plainText html →
  (open = "$" → formula ≠ "") →
  katex formula mode = Some html →
  renderLatex katex (Some (pre +:+ open +:+ formula +:+ close +:+ post)) =
  (pre +:+ html +:+ post, [KatexCall formula mode]).
Proof.
  intros Hin [Hpre Hpre'] [Hformula Hformula'] [Hpost Hpost'] [Hhtml Hhtml']
    Hne Hok.
  pose proof (plainText_join pre html post _ Hpre Hhtml Hpost) as Hout.
  pose proof (plainText_join pre html post _ Hpre' Hhtml' Hpost') as Hout'.
  unfold delimiters in Hin.
  repeat (apply elem_of_cons in Hin as [[= -> -> ->]|Hin]);
    [| | | |by apply elem_of_nil in Hin];
    unfold renderLatex; rewrite !is_empty_append, andb_false_r;
    unfold replace_display_dollars, replace_display_brackets,
      replace_inline_dollar, replace_inline_parens.
  - rewrite (replace_single "$" "$" "$" "$" _ pre formula post Hpre Hformula Hpost).
    unfold render_or_keep at 1. rewrite Hok.
    rewrite (replace_plain "\" "[" _ _ _ Hout').
    rewrite (replace_plain "$" "" _ _ _ Hout).
    by rewrite (replace_plain "\" "(" _ _ _ Hout').
  - rewrite (replace_plain "$" "$").
    2: { by rewrite !has_unit_append, Hpre, Hformula, Hpost. }
    rewrite (replace_single "\" "[" "\" "]" _ pre formula post Hpre' Hformula' Hpost').
    unfold render_or_keep at 1. rewrite Hok.
    rewrite (replace_plain "$" "" _ _ _ Hout).
    by rewrite (replace_plain "\" "(" _ _ _ Hout').
  - rewrite (replace_not_included "$$").
    2: { rewrite (includes_append_no_unit "$" "$" pre _ Hpre).
         change ("$" +:+ formula +:+ "$" +:+ post)
           with (String "$" (formula +:+ String "$" post)).
         rewrite includes_step.
         2: { rewrite head_is_append by auto. by apply head_is_no_unit. }
         rewrite (includes_append_no_unit "$" "$" formula _ Hformula).
         rewrite includes_step by by apply head_is_no_unit.
         by apply includes_no_unit. }
    rewrite (replace_plain "\" "[").
    2: { by rewrite !has_unit_append, Hpre', Hformula', Hpost'. }
    rewrite (replace_single "$" "" "$" "" _ pre formula post Hpre Hformula Hpost).
    unfold render_or_keep at 1. rewrite Hok.
    by rewrite (replace_plain "\" "(" _ _ _ Hout').
  - rewrite (replace_plain "$" "$").
    2: { by rewrite !has_unit_append, Hpre, Hformula, Hpost. }
    rewrite (replace_not_included "\[").
    2: { rewrite (includes_append_no_unit "\" "[" pre _ Hpre').
         change ("\(" +:+ formula +:+ "\)" +:+ post)
           with (String "\" (String "(" formula +:+ String "\" (String ")" post))).
         rewrite includes_step by done.
         rewrite (includes_append_no_unit "\" "[" (String "(" formula)) by done.
         rewrite includes_step by done.
         by apply includes_no_unit. }
    rewrite (replace_plain "$" "").
    2: { by rewrite !has_unit_append, Hpre, Hformula, Hpost. }
    rewrite (replace_single "\" "(" "\" ")" _ pre formula post Hpre' Hformula' Hpost').
    unfold render_or_keep at 1. by rewrite Hok.
Qed.

(** X19: when the renderer rejects every formula, every text comes back
    as it was: each replacement puts the matched text back, delimiters
    included. *)
Theorem renderLatex_all_rejected (katex : string → bool → option string)
    (text : string) :
  (∀ formula mode, katex formula mode = None) →
  fst (renderLatex katex (Some text)) = text.
Proof.
  intros Hfail. unfold renderLatex.
  destruct (is_empty text) eqn:Hempty; [by apply is_empty_true in Hempty as ->|].
  assert (Hkeep : ∀ mode msg matched formula,
            fst (render_or_keep katex mode msg matched formula) = matched).
  { intros mode msg matched formula. apply render_or_keep_failure, Hfail. }
  unfold replace_display_dollars, replace_display_brackets,
    replace_inline_dollar, replace_inline_parens, replace.
  repeat match goal with
  | |- context [replace_go ?o ?c ?cb ?n ?s] =>
      let H := fresh "H" in
      pose proof (replace_go_keep o c cb n s (Hkeep _ _)) as H;
      destruct (replace_go o c cb n s) as [? ?]; simpl in H; subst
  end.
  done.
Qed.

(** ** The loader *)

(** X20: the loader writes two refs only, the collection and the
    console.  The collection keeps what it held and grows at its end,
    the console gets one entry, and the filter, the page and the notices
    stay as they are.  Documents of another shape than the expected one
    (the first an array or a plain object, the second not an array) are
    passed over without an error: the count that is logged is the length
    of the collection before. *)
Theorem loadPapersData_frame (fetch : string → FetchResult) (s : State) :
  let s' := (loadPapersData fetch s).1 in
  (∃ more, allPapers s' = allPapers s ++ more) ∧
  (∃ entry, console s' = console s ++ [entry]) ∧
  (searchQuery s', selectedYear s', selectedVenue s', selectedTags s',
   excludedTags s', showOnlyWithCode s', currentPage s', papersPerPage s',
   inputPage s', alerts s') =
  (searchQuery s, selectedYear s, selectedVenue s, selectedTags s,
   excludedTags s, showOnlyWithCode s, currentPage s, papersPerPage s,
   inputPage s, alerts s) ∧
  (∀ data1 data2,
     fetch url1 = Parsed data1 → fetch url2 = Parsed data2 →
     recordsFirst data1 = [] → data1 ≠ JsonNull → recordsSecond data2 = [] →
     allPapers s' = allPapers s ∧
     console s' = console s ++ [ConsoleLog "Total papers loaded:"
                                  (Z.of_nat (length (allPapers s)))]).
Proof.
  cbv zeta. rewrite loadPapersData_run. cbv zeta.
  destruct (fetch url1) as [| |data1] eqn:Hfetch1.
  - split; [exists []; simpl; by rewrite app_nil_r|].
    split; [by eexists|]. split; [done|]. intros d d' [=].
  - split; [exists []; simpl; by rewrite app_nil_r|].
    split; [by eexists|]. split; [done|]. intros d d' [=].
  - assert (Hrest :
      let s1 := set_allPapers (allPapers s ++ recordsFirst data1) s in
      ∀ r : State * (unit + string),
        r = match fetch url2 with
            | FetchRejected =>
                (console_push (ConsoleError "Failed to load papers data:"
                                 "TypeError: Failed to fetch") s1, inl ())
            | JsonRejected =>
                (console_push (ConsoleError "Failed to load papers data:"
                                 "SyntaxError: Unexpected token") s1, inl ())
            | Parsed data2 =>
                let s2 := set_allPapers
                            (allPapers s ++ recordsFirst data1 ++ recordsSecond data2) s in
                (console_push
                   (ConsoleLog "Total papers loaded:" (Z.of_nat (length (allPapers s2))))
                   s2, inl ())
            end →
        (∃ more, allPapers r.1 = allPapers s ++ more) ∧
        (∃ entry, console r.1 = console s ++ [entry]) ∧
        (searchQuery r.1, selectedYear r.1, selectedVenue r.1, selectedTags r.1,
         excludedTags r.1, showOnlyWithCode r.1, currentPage r.1, papersPerPage r.1,
         inputPage r.1, alerts r.1) =
        (searchQuery s, selectedYear s, selectedVenue s, selectedTags s,
         excludedTags s, showOnlyWithCode s, currentPage s, papersPerPage s,
         inputPage s, alerts s) ∧
        (∀ data2, fetch url2 = Parsed data2 →
           recordsFirst data1 = [] → recordsSecond data2 = [] →
           allPapers r.1 = allPapers s ∧
           console r.1 = console s ++ [ConsoleLog "Total papers loaded:"
                                         (Z.of_nat (length (allPapers s)))])).
    { cbv zeta. intros r ->. destruct (fetch url2) as [| |data2]; simpl.
      - split; [by eexists|]. split; [by eexists|]. split; [done|]. intros d [=].
      - split; [by eexists|]. split; [by eexists|]. split; [done|]. intros d [=].
      - split; [by eexists|]. split; [by eexists|]. split; [done|].
        intros d [= <-] -> ->. by rewrite !app_nil_r. }
    destruct data1 as [nested|papers| |].
    + destruct (Hrest _ eq_refl) as (Hmore & Hentry & Hframe & Hshape).
      split; [done|]. split; [done|]. split; [done|].
      intros d d' [= <-] Hd' Hd _ Hd2. by apply (Hshape d').
    + destruct (Hrest _ eq_refl) as (Hmore & Hentry & Hframe & Hshape).
      split; [done|]. split; [done|]. split; [done|].
      intros d d' [= <-] Hd' Hd _ Hd2. by apply (Hshape d').
    + destruct (Hrest _ eq_refl) as (Hmore & Hentry & Hframe & Hshape).
      split; [done|]. split; [done|]. split; [done|].
      intros d d' [= <-] Hd' Hd _ Hd2. by apply (Hshape d').
    + split; [exists []; simpl; by rewrite app_nil_r|].
      split; [by eexists|]. split; [done|]. intros d d' [= <-] _ _ Hnull. done.
Qed.

(** ** Marking the query in a text *)

Lemma literalPattern_escapeRegExp q : literalPattern (escapeRegExp q) = Some q.
Proof.
  induction q as [|c q IH]; [done|]. cbn [escapeRegExp].
  destruct (is_regexp_special c) eqn:Hspecial.
  - cbn [literalPattern]. by rewrite Ascii.eqb_refl, Hspecial, IH.
  - cbn [literalPattern]. destruct (Ascii.eqb c "\") eqn:Hc.
    + apply Ascii.eqb_eq in Hc as ->. done.
    + by rewrite Hspecial, IH.
Qed.

Lemma canonical_cons c s : canonical (String c s) = canonicalize c :: canonical s.
Proof. reflexivity. Qed.

Lemma canonical_length a b :
  canonical a = canonical b → String.length a = String.length b.
Proof.
  revert b. induction a as [|x a IH]; intros [|y b]; try done.
  rewrite !canonical_cons. intros [= _ Hab]. simpl. f_equal. by apply IH.
Qed.

Lemma startsWithIgnoreCase_true text q :
  startsWithIgnoreCase text q = true →
  text = firstUnits (String.length q) text +:+ skip (String.length q) text ∧
  canonical (firstUnits (String.length q) text) = canonical q.
Proof.
  revert text. induction q as [|a q IH]; intros text; [done|].
  destruct text as [|b text]; [done|]. cbn [startsWithIgnoreCase].
  destruct (N.eqb (canonicalize a) (canonicalize b)) eqn:Hab; [|done].
  apply N.eqb_eq in Hab. intros [Htext Heq]%IH.
  cbn [String.length firstUnits skip]. rewrite append_String, <- Htext.
  split; [done|]. rewrite !canonical_cons. by rewrite Heq, Hab.
Qed.

Lemma startsWithIgnoreCase_false text q :
  startsWithIgnoreCase text q = false →
  ∀ m rest, text = m +:+ rest → canonical m ≠ canonical q.
Proof.
  revert text. induction q as [|a q IH]; intros text; [done|].
  intros Hstart m rest -> Heq.
  destruct m as [|b m]; [done|]. rewrite !canonical_cons in Heq.
  injection Heq as Hb Hm. rewrite append_String in Hstart.
  cbn [startsWithIgnoreCase] in Hstart. rewrite Hb, N.eqb_refl in Hstart.
  by apply (IH _ Hstart m rest).
Qed.

Lemma includesIgnoreCase_spec text q :
  includesIgnoreCase text q = true ↔ occurs_ignoring_case q text.
Proof.
  unfold occurs_ignoring_case. induction text as [|c text IH]; cbn [includesIgnoreCase].
  - rewrite orb_false_r. split.
    + intros [Htext Heq]%startsWithIgnoreCase_true.
      exists "", (firstUnits (String.length q) ""), (skip (String.length q) "").
      by rewrite append_empty_l.
    + intros ([|c pre] & m & post & Htext & Heq); [|done].
      rewrite append_empty_l in Htext.
      destruct (startsWithIgnoreCase "" q) eqn:Hstart; [done|].
      by destruct (startsWithIgnoreCase_false _ _ Hstart m post Htext).
  - rewrite orb_true_iff, IH. split.
    + intros [[Htext Heq]%startsWithIgnoreCase_true|(pre & m & post & -> & Heq)].
      * exists "", (firstUnits (String.length q) (String c text)),
          (skip (String.length q) (String c text)).
        by rewrite append_empty_l.
      * by exists (String c pre), m, post.
    + intros ([|c' pre] & m & post & Htext & Heq).
      * left. rewrite append_empty_l in Htext.
        destruct (startsWithIgnoreCase (String c text) q) eqn:Hstart; [done|].
        by destruct (startsWithIgnoreCase_false _ _ Hstart m post Htext).
      * right. rewrite append_String in Htext. injection Htext as _ ->.
        by exists pre, m, post.
Qed.

Lemma mark_go_marked q fuel text :
  q ≠ "" → (String.length text ≤ fuel)%nat → marked q text (mark_go fuel q text).
Proof.
  intros Hq. revert text. induction fuel as [|fuel IH]; intros text Hfuel.
  - destruct text; [constructor|simpl in Hfuel; lia].
  - destruct text as [|c text]; [constructor|]. cbn [mark_go].
    destruct (startsWithIgnoreCase (String c text) q) eqn:Hstart.
    + apply startsWithIgnoreCase_true in Hstart as [Htext Heq].
      set (m := firstUnits (String.length q) (String c text)) in *.
      set (rest := skip (String.length q) (String c text)) in *.
      rewrite Htext at 1. apply marked_match; [done|]. apply IH.
      assert (Hlen : String.length (String c text) =
                     (String.length m + String.length rest)%nat)
        by (rewrite Htext at 1; apply length_append).
      apply canonical_length in Heq. destruct q; [done|].
      simpl in Hlen, Hfuel, Heq. lia.
    + apply marked_unit; [by apply startsWithIgnoreCase_false|].
      apply IH. simpl in Hfuel. lia.
Qed.

Lemma marked_no_occurrence q text out :
  marked q text out → ¬ occurs_ignoring_case q text → out = text.
Proof.
  induction 1 as [|m rest out Heq _ _|c rest out _ _ IH]; intros Hnone; [done| |].
  - destruct Hnone. exists "", m, rest. by rewrite append_empty_l.
  - f_equal. apply IH. intros (pre & m & post & Hsub & Heq). apply Hnone.
    exists (String c pre), m, post. by rewrite append_String, <- Hsub.
Qed.

(** X21: [highlightSearchTerm] marks the query where it occurs.  The
    escaped query, read as a pattern, matches the query itself and
    nothing else, whatever code units it holds.  With an empty query
    the text comes back; otherwise the places where the query occurs,
    letter case ignored as the flag [i] of the host does (code unit by
    code unit, two units matching when their canonical forms are
    equal), are put between the marks, from left to right and without
    overlap, and the rest is copied; a text in which the query does not
    occur comes back as it is. *)
Theorem highlightSearchTerm_spec (text : string) (s : State) :
  literalPattern (escapeRegExp (searchQuery s)) = Some (searchQuery s) ∧
  (searchQuery s = "" → highlightSearchTerm text s = text) ∧
  (searchQuery s ≠ "" →
   marked (searchQuery s) text (highlightSearchTerm text s) ∧
   (¬ occurs_ignoring_case (searchQuery s) text →
    highlightSearchTerm text s = text)).
Proof.
  split; [apply literalPattern_escapeRegExp|]. unfold highlightSearchTerm.
  rewrite literalPattern_escapeRegExp. split.
  - by intros ->.
  - intros Hq. apply is_empty_false in Hq as Hempty. rewrite Hempty.
    pose proof (mark_go_marked (searchQuery s) (String.length text) text Hq
                  (Nat.le_refl _)) as Hmarked.
    split; [done|]. by apply marked_no_occurrence.
Qed.

(** ** The selectors and the code switch *)

Lemma years_elem_of s y :
  y ∈ years s ↔ ∃ paper, paper ∈ allPapers s ∧ year paper = y.
Proof.
  unfold years, yearSet.
  destruct (yearSet_fold [] (allPapers s) (NoDup_nil_2)) as [_ Hin].
  rewrite sort_Permutation, Hin. split; [|by right].
  intros [Hy|?]; [by apply elem_of_nil in Hy | done].
Qed.

Lemma venues_elem_of s v :
  v ∈ venues s ↔ ∃ paper, paper ∈ allPapers s ∧ venue paper = v ∧ v ≠ "".
Proof.
  unfold venues, venueSet.
  destruct (venueSet_fold [] (allPapers s) (NoDup_nil_2)) as [_ Hin].
  rewrite sort_Permutation, Hin. split; [|by right].
  intros [Hv|?]; [by apply elem_of_nil in Hv | done].
Qed.

(** X22: every option of the two selectors finds something.  With a
    search box whose text is empty once lower-cased and trimmed, and
    nothing else selected, choosing a year of the list of years shows
    the papers of that year, and there is one; choosing a venue of the
    list of venues shows the papers of that venue, and there is one. *)
Theorem selector_options_find_papers (s : State) :
  query s = "" → no_selection s →
  (∀ y, y ∈ years s →
        filteredPapers (set_selectedYear (YearIs y) s) ≠ [] ∧
        ∀ paper, paper ∈ filteredPapers (set_selectedYear (YearIs y) s) ↔
                 paper ∈ allPapers s ∧ year paper = y) ∧
  (∀ v, v ∈ venues s → v ≠ "all" →
        filteredPapers (set_selectedVenue v s) ≠ [] ∧
        ∀ paper, paper ∈ filteredPapers (set_selectedVenue v s) ↔
                 paper ∈ allPapers s ∧ venue paper = v).
Proof.
  intros Hquery (Hyear & Hvenue & Hsel & Hexc & Hcode). split.
  - intros y (chosen & Hchosen & Hy)%years_elem_of.
    assert (Hmem : ∀ paper,
      paper ∈ filteredPapers (set_selectedYear (YearIs y) s) ↔
      paper ∈ allPapers s ∧ year paper = y).
    { intros paper. rewrite filteredPapers_elem_of, paperMatches_spec.
      change (query (set_selectedYear (YearIs y) s)) with (query s).
      unfold matches_in_words. simpl. rewrite Hquery, Hvenue, Hsel, Hexc, Hcode.
      split.
      - intros (Hin & _ & [?|[= ->]] & _); done.
      - intros [Hin <-]. split; [done|].
        repeat split; try (by left); try (by right);
          intros t Ht; by apply not_elem_of_empty in Ht. }
    split; [|done]. intros Hnil.
    assert (Hin : chosen ∈ filteredPapers (set_selectedYear (YearIs y) s))
      by by apply Hmem.
    rewrite Hnil in Hin. by apply elem_of_nil in Hin.
  - intros v (chosen & Hchosen & Hv & _)%venues_elem_of Hall.
    assert (Hmem : ∀ paper,
      paper ∈ filteredPapers (set_selectedVenue v s) ↔
      paper ∈ allPapers s ∧ venue paper = v).
    { intros paper. rewrite filteredPapers_elem_of, paperMatches_spec.
      change (query (set_selectedVenue v s)) with (query s).
      unfold matches_in_words. simpl. rewrite Hquery, Hyear, Hsel, Hexc, Hcode.
      split.
      - intros (Hin & _ & _ & [? | ->] & _); done.
      - intros [Hin <-]. split; [done|].
        repeat split; try (by left); try (by right);
          intros t Ht; by apply not_elem_of_empty in Ht. }
    split; [|done]. intros Hnil.
    assert (Hin : chosen ∈ filteredPapers (set_selectedVenue v s))
      by by apply Hmem.
    rewrite Hnil in Hin. by apply elem_of_nil in Hin.
Qed.

(** X23: the code switch.  Two clicks give the state back.  Turning the
    switch on keeps, of the list shown, the papers whose code link is
    not empty after trimming; turning it off never hides a paper. *)
Theorem toggleShowOnlyWithCode_spec (s : State) :
  toggleShowOnlyWithCode (toggleShowOnlyWithCode s) = s ∧
  (showOnlyWithCode s = false →
   sublist (filteredPapers (toggleShowOnlyWithCode s)) (filteredPapers s) ∧
   ∀ paper, paper ∈ filteredPapers (toggleShowOnlyWithCode s) ↔
            paper ∈ filteredPapers s ∧ trim (github_links paper) ≠ "") ∧
  (showOnlyWithCode s = true →
   sublist (filteredPapers s) (filteredPapers (toggleShowOnlyWithCode s))).
Proof.
  split; [|split].
  - unfold toggleShowOnlyWithCode. simpl. rewrite negb_involutive. by destruct s.
  - intros Hoff.
    assert (Hmatch : ∀ paper,
      paperMatches (toggleShowOnlyWithCode s) paper = true ↔
      paperMatches s paper = true ∧ trim (github_links paper) ≠ "").
    { intros paper. rewrite !paperMatches_spec. unfold matches_in_words. simpl.
      rewrite Hoff. simpl. intuition congruence. }
    split.
    + unfold filteredPapers. simpl. apply filter_sublist_impl.
      intros paper Hpaper. by apply Hmatch in Hpaper as [? _].
    + intros paper. rewrite !filteredPapers_elem_of, Hmatch. simpl. tauto.
  - intros Hon. unfold filteredPapers. simpl. apply filter_sublist_impl.
    intros paper. rewrite !paperMatches_spec. unfold matches_in_words. simpl.
    rewrite Hon. simpl. intuition.
Qed.

End Properties.

(** * The examples *)

#[local] Existing Instance latin1_host.

(** ** The host of the examples *)

Example trim_both_ends : Latin1.trim "  Ann  Lee  " = "Ann  Lee".
Proof. reflexivity. Qed.

Example toLowerCase_mixed : Latin1.toLowerCase "Deep Learning-2" = "deep learning-2".
Proof. reflexivity. Qed.

Lemma is_ws_lower_unit c : Latin1.is_ws (Latin1.lower_unit c) = Latin1.is_ws c.
Proof. by destruct c as [[] [] [] [] [] [] [] []]. Qed.

Lemma is_empty_toLowerCase s : is_empty (Latin1.toLowerCase s) = is_empty s.
Proof. by destruct s. Qed.

Lemma trimStart_toLowerCase s :
  Latin1.trimStart (Latin1.toLowerCase s) = Latin1.toLowerCase (Latin1.trimStart s).
Proof.
  induction s as [|c s IH]; simpl; [done|].
  rewrite is_ws_lower_unit. by destruct (Latin1.is_ws c).
Qed.

Lemma trimEnd_toLowerCase s :
  Latin1.trimEnd (Latin1.toLowerCase s) = Latin1.toLowerCase (Latin1.trimEnd s).
Proof.
  induction s as [|c s IH]; simpl; [done|].
  rewrite is_ws_lower_unit, IH, is_empty_toLowerCase.
  by destruct (Latin1.is_ws c && is_empty (Latin1.trimEnd s)).
Qed.

(** Lower-casing and trimming commute. *)
Lemma trim_toLowerCase s :
  Latin1.trim (Latin1.toLowerCase s) = Latin1.toLowerCase (Latin1.trim s).
Proof. unfold Latin1.trim. by rewrite trimStart_toLowerCase, trimEnd_toLowerCase. Qed.

Lemma toLowerCase_empty s : Latin1.toLowerCase s = "" ↔ s = "".
Proof. by destruct s. Qed.

Lemma latin1_keeps_white_space : lower_case_keeps_white_space.
Proof. split; [apply trim_toLowerCase | apply toLowerCase_empty]. Qed.








(** ** The properties on the sample data *)

(** C1 as stated fails for a query with white space around it: with
    "nlp" and a space in the search box the paper with keyword NLP is
    shown, though that text is not empty and occurs, letter case
    ignored, in none of its fields. *)
Lemma filteredPapers_untrimmed_query_counterexample :
  ¬ (nlp_paper ∈ filteredPapers trailing_space_state ↔
     nlp_paper ∈ allPapers trailing_space_state ∧
     matches_in_words (toLowerCase (searchQuery trailing_space_state))
       trailing_space_state nlp_paper).
Proof.
  intros [Hcode _].
  destruct Hcode as (_ & [Hq | (field & Hin & Hsub)] & _).
  - vm_compute. apply list_elem_of_here.
  - discriminate Hq.
  - apply includes_spec in Hsub.
    rewrite !elem_of_cons, elem_of_nil in Hin.
    destruct Hin as [->|[->|[->|[->|[->|[]]]]]]; vm_compute in Hsub; discriminate.
Qed.



(** The cycle on the first page of a fresh session, for the tag nlp. *)
Lemma toggleTagFilter_cycle_witness :
  let s1 := toggleTagFilter "nlp" initialState in
  let s2 := toggleTagFilter "nlp" s1 in
  let s3 := toggleTagFilter "nlp" s2 in
  ("nlp" ∈ selectedTags s1 ∧ "nlp" ∉ excludedTags s1) ∧
  (("nlp" ∉ selectedTags s2) ∧ "nlp" ∈ excludedTags s2) ∧
  (("nlp" ∉ selectedTags s3) ∧ "nlp" ∉ excludedTags s3) ∧
  s3 = initialState ∧
  (selectedTags initialState ## excludedTags initialState →
   selectedTags s1 ## excludedTags s1 ∧
   selectedTags s2 ## excludedTags s2 ∧
   selectedTags s3 ## excludedTags s3).
Proof.
  apply (toggleTagFilter_cycle "nlp" initialState); simpl;
    apply not_elem_of_empty.
Defined.

(** 120 papers in pages of 50, and the session after choosing 20 per page. *)
Lemma totalPages_spec_witness :
  (0 ≤ 120 ∧ 0 < 50 ∧ reachable (dispatch (ChangePapersPerPage 20) initialState)) ∧
  page_count 120 50 = 3 ∧
  1 ≤ currentPage (dispatch (ChangePapersPerPage 20) initialState)
    ≤ Z.max 1 (totalPages (dispatch (ChangePapersPerPage 20) initialState)).
Proof.
  assert (Hr : reachable (dispatch (ChangePapersPerPage 20) initialState)).
  { apply reachable_dispatch; [simpl; lia | apply reachable_initial]. }
  pose proof (totalPages_spec 120 50 _ ltac:(lia) ltac:(lia) Hr)
    as (_ & _ & _ & _ & _ & Hrange & _).
  split; [split; [lia | split; [lia | exact Hr]]|].
  split; [reflexivity | exact Hrange].
Defined.

(** C3 as stated fails for the empty list: the page count is 0, not
    [max(1, ceil(0 / 50)) = 1], and page 1 is above it. *)
Lemma totalPages_empty_counterexample :
  length (filteredPapers initialState) = 0%nat ∧
  papersPerPage initialState = 50 ∧
  totalPages initialState ≠ Z.max 1 (Math_ceil_div 0 50) ∧
  ¬ (1 ≤ currentPage initialState ≤ totalPages initialState).
Proof.
  split; [reflexivity|]. split; [reflexivity|].
  split; vm_compute; [discriminate|]. intros [_ H]. by apply H.
Qed.

(** Narrowing 120 papers on page 3 to the ten about NLP: page 1 of 1. *)
Lemma filter_change_resets_page_witness :
  reachable page3_state ∧
  currentPage page3_state = 3 ∧ totalPages page3_state = 3 ∧
  filterState (handle (SetSearchQuery "nlp") page3_state) ≠ filterState page3_state ∧
  currentPage (dispatch (SetSearchQuery "nlp") page3_state) = 1 ∧
  totalPages (dispatch (SetSearchQuery "nlp") page3_state) = 1 ∧
  length (paginatedPapers (dispatch (SetSearchQuery "nlp") page3_state)) = 10%nat.
Proof.
  assert (Hreach : reachable page3_state).
  { apply reachable_dispatch; [exact I|].
    apply reachable_dispatch; [exact I | apply reachable_initial]. }
  assert (Hchange : filterState (handle (SetSearchQuery "nlp") page3_state)
                    ≠ filterState page3_state) by (vm_compute; intros [=]).
  destruct (filter_change_resets_page (SetSearchQuery "nlp") page3_state 20 Hreach)
    as [Hreset _].
  destruct (Hreset Hchange) as [Hpage Hshown].
  split; [exact Hreach|].
  split; [by vm_compute|]. split; [by vm_compute|].
  split; [exact Hchange|]. split; [exact Hpage|].
  split; [by vm_compute|]. rewrite Hshown. by vm_compute.
Defined.

(** The 120 papers in pages of 50: three pages of 50, 50 and 20. *)
Lemma pages_concat_witness :
  0 < 50 ∧
  seqZ 1 (Z.max 1 (Math_ceil_div (Z.of_nat (length catalogue120)) 50)) = [1; 2; 3] ∧
  page_window catalogue120 1 50 ++ page_window catalogue120 2 50 ++
    page_window catalogue120 3 50 = catalogue120.
Proof.
  split; [lia|]. split; [reflexivity|].
  destruct (pages_concat catalogue120 50 ltac:(lia)) as [Hmax _].
  etrans; [|exact Hmax]. by vm_compute.
Defined.

(** The query " le " over two papers: the first five of six candidates. *)
Lemma searchSuggestions_spec_witness :
  trim (toLowerCase (searchQuery suggestion_state)) ≠ "" ∧
  searchSuggestions suggestion_state =
    ["Learning to parse"; "Ann Lee"; "Learning"; "Cy Lemm"; "learning"] ∧
  NoDup (searchSuggestions suggestion_state) ∧
  trim (searchQuery suggestion_state) ≠ "".
Proof.
  assert (Hq : trim (toLowerCase (searchQuery suggestion_state)) ≠ "")
    by (vm_compute; discriminate).
  destruct (searchSuggestions_spec suggestion_state) as (_ & Hspec & Hbridge).
  destruct (Hspec Hq) as (_ & Hnodup & _).
  destruct (Hbridge latin1_keeps_white_space) as [Hempty _].
  split; [exact Hq|]. split; [by vm_compute|]. split; [exact Hnodup|].
  intros Htrim. by apply Hq, Hempty.
Defined.

(** The first document loads three records and the second cannot be
    parsed: the three records stay and the failure is logged. *)
Lemma loadPapersData_failure_witness :
  second_fails (fetch_first_only url2) ∧
  (loadPapersData fetch_first_only initialState).2 = inl () ∧
  allPapers (loadPapersData fetch_first_only initialState).1 =
    [nlp_paper; nlp_paper; vision_paper].
Proof.
  assert (Hsecond : second_fails (fetch_first_only url2)) by (by right).
  destruct (loadPapersData_failure fetch_first_only initialState)
    as (Hresult & _ & Hfirst & _).
  destruct (Hfirst _ eq_refl ltac:(discriminate) Hsecond) as [Hpapers _].
  split; [exact Hsecond|]. split; [exact Hresult | exact Hpapers].
Defined.

(** C2 as stated fails: when the first document cannot be fetched and
    the second would give five records, the collection stays empty. *)
Lemma loadPapersData_first_failure_counterexample :
  fetch_second_only url1 = FetchRejected ∧
  fetch_second_only url2 = Parsed (JsonArray five_papers) ∧
  length five_papers = 5%nat ∧
  allPapers (loadPapersData fetch_second_only initialState).1 = [] ∧
  allPapers (loadPapersData fetch_second_only initialState).1 ≠ five_papers.
Proof. repeat split; try by vm_compute. Qed.

(** Keywords written with semicolons: one tag for the whole string. *)
Lemma tags_spec_witness :
  has_unit "," (keywords (mkPaper "ICLR" 2024 "A" "A" "" "" "Deep Learning; NLP" "Ann Lee" "" "" "" "v1")) = false ∧
  "Deep Learning; NLP" ∈ tags deep_learning_state.
Proof.
  split; [reflexivity|].
  destruct (tags_spec deep_learning_state) as (_ & _ & _ & Hwhole).
  apply (Hwhole (mkPaper "ICLR" 2024 "A" "A" "" "" "Deep Learning; NLP" "Ann Lee" "" "" "" "v1")).
  - apply list_elem_of_here.
  - reflexivity.
  - vm_compute. discriminate.
Defined.



(** Twelve pages of one paper each, the fifth shown: 1, 3..7 and 12 have
    a button, and dots stand on both sides. *)
Lemma page_buttons_spec_witness :
  let s := set_currentPage 5
             (set_papersPerPage 1 (set_allPapers (replicate 12 nlp_paper) initialState)) in
  1 ≤ currentPage s ≤ totalPages s ∧
  shownPages s = [1; 3; 4; 5; 6; 7; 12] ∧
  (length (shownPages s) ≤ 7)%nat ∧
  ∃ page, 1 < page < currentPage s ∧ page ∉ shownPages s.
Proof.
  intros s.
  assert (Hpage : 1 ≤ currentPage s ≤ totalPages s) by (by vm_compute).
  destruct (page_buttons_spec s Hpage) as (_ & Hlen & Hdots & _).
  split; [exact Hpage|]. split; [by vm_compute|]. split; [exact Hlen|].
  apply Hdots; by vm_compute.
Defined.

(** On the third of three pages: forward does nothing, back and forward
    come back to it. *)
Lemma navigation_steps_witness :
  totalPages page3_state ≤ currentPage page3_state ∧
  nextPage page3_state = page3_state ∧
  nextPage (prevPage page3_state) = page3_state.
Proof.
  assert (Hlast : totalPages page3_state ≤ currentPage page3_state) by (by vm_compute).
  assert (Hmid : 1 < currentPage page3_state ≤ totalPages page3_state) by (by vm_compute).
  destruct (navigation_steps page3_state 1) as (Hnext & _ & _ & Hback & _).
  split; [exact Hlast|]. split; [exact (Hnext Hlast) | exact (Hback Hmid)].
Defined.

(** After narrowing the 120 papers on page 3 to ten: ten papers shown. *)
Lemma shown_page_not_empty_witness :
  reachable (dispatch (SetSearchQuery "nlp") page3_state) ∧
  filteredPapers (dispatch (SetSearchQuery "nlp") page3_state) ≠ [] ∧
  paginatedPapers (dispatch (SetSearchQuery "nlp") page3_state) ≠ [].
Proof.
  assert (Hreach : reachable (dispatch (SetSearchQuery "nlp") page3_state)).
  { do 3 (apply reachable_dispatch; [exact I|]). apply reachable_initial. }
  assert (Hmatch : filteredPapers (dispatch (SetSearchQuery "nlp") page3_state) ≠ [])
    by (by vm_compute).
  split; [exact Hreach|]. split; [exact Hmatch|].
  exact (proj2 (shown_page_not_empty _ Hreach) Hmatch).
Defined.

(** The first card of the third page of 50 has the number 101. *)
Lemma paperNumber_spec_witness :
  paginatedPapers page3_state !! 0%nat = Some vision_paper ∧
  paperNumber page3_state 0 = 101 ∧
  filteredPapers page3_state !! 100%nat = Some vision_paper.
Proof.
  assert (Hcard : paginatedPapers page3_state !! 0%nat = Some vision_paper)
    by (by vm_compute).
  destruct (paperNumber_spec page3_state 0 vision_paper
              ltac:(by vm_compute) ltac:(by vm_compute) Hcard) as [_ Hplace].
  split; [exact Hcard|]. split; [reflexivity | exact Hplace].
Defined.

Lemma tag_filter_split_witness :
  let s := deep_learning_state in
  length (filteredPapers s) =
  (length (filteredPapers (toggleTagFilter "nlp" s)) +
   length (filteredPapers (toggleTagFilter "nlp" (toggleTagFilter "nlp" s))))%nat.
Proof.
  intros s.
  assert (Hsel : "nlp" ∉ selectedTags s) by (simpl; set_solver).
  assert (Hexc : "nlp" ∉ excludedTags s) by (simpl; set_solver).
  apply (tag_filter_split "nlp" s Hsel Hexc).
Defined.

(** After including nlp, excluding it and including vision. *)
Lemma reachable_tags_disjoint_witness :
  let s := dispatch (ToggleTagFilter "vision")
             (dispatch (ToggleTagFilter "nlp")
                (dispatch (ToggleTagFilter "nlp") initialState)) in
  reachable s ∧ selectedTags s ## excludedTags s.
Proof.
  intros s.
  assert (Hreach : reachable s).
  { do 3 (apply reachable_dispatch; [exact I|]). apply reachable_initial. }
  split; [exact Hreach | exact (reachable_tags_disjoint s Hreach)].
Defined.

Lemma tag_chip_filter_witness :
  1 ≤ Z.of_nat (length (filteredPapers
                          (toggleTagFilter "deep learning" deep_learning_state))) ≤ 2.
Proof.
  apply (tag_chip_filter deep_learning_state "deep learning" 2).
  - apply rankedTagCounts_elem_of. by vm_compute.
  - reflexivity.
  - reflexivity.
  - by repeat split.
Defined.


Lemma renderLatex_plain_text_witness :
  renderLatex katex_failing (Some "Attention is all you need") =
  ("Attention is all you need", []).
Proof. apply renderLatex_plain_text. by split. Defined.

Lemma renderLatex_single_formula_witness :
  renderLatex katex_sample (Some ("Loss " +:+ "\(" +:+ "x^2" +:+ "\)" +:+ " decreases")) =
  ("Loss " +:+ "<span>x^2</span>" +:+ " decreases", [KatexCall "x^2" false]).
Proof.
  apply (renderLatex_single_formula katex_sample "\(" "\)" false
           "Loss " "x^2" " decreases" "<span>x^2</span>");
    try (by split); try done.
  by repeat constructor.
Defined.

Lemma renderLatex_all_rejected_witness :
  fst (renderLatex katex_failing (Some "a $$x$$ b \[y\] c $z$ d \(w\) e")) =
  "a $$x$$ b \[y\] c $z$ d \(w\) e".
Proof. by apply renderLatex_all_rejected. Defined.

Lemma selector_options_find_papers_witness :
  filteredPapers (set_selectedYear (YearIs 2023) deep_learning_state) ≠ [] ∧
  filteredPapers (set_selectedVenue "ICLR" deep_learning_state) ≠ [].
Proof.
  assert (Hquery : query deep_learning_state = "") by reflexivity.
  assert (Hnone : no_selection deep_learning_state) by by repeat split.
  destruct (selector_options_find_papers deep_learning_state Hquery Hnone)
    as [Hyears Hvenues].
  split.
  - apply (Hyears 2023). vm_compute. by repeat constructor.
  - apply (Hvenues "ICLR"); [|done]. vm_compute. by repeat constructor.
Defined.

Lemma goToInputPage_spec_witness :
  Some 2 = Some (currentPage (goToInputPage (Some 2) page3_state)) ∧
  alerts (goToInputPage (Some 2) page3_state) = alerts page3_state ∧
  alerts (goToInputPage (Some 4) page3_state) = alerts page3_state ++ [3].
Proof.
  destruct (goToInputPage_spec (Some 2) page3_state) as (_ & _ & _ & Hvalid & _).
  destruct (goToInputPage_spec (Some 4) page3_state) as (_ & _ & _ & _ & Hinvalid).
  cbv zeta in Hvalid, Hinvalid.
  assert (Hpages : totalPages page3_state = 3) by by vm_compute.
  rewrite Hpages in Hvalid, Hinvalid.
  destruct Hvalid as [Hpage Halerts]; [exists 2; split; [done|lia]|].
  destruct Hinvalid as [_ Hnotice]; [intros (n & [= <-] & Hn); lia|].
  by repeat split.
Defined.

Lemma clearAllFilters_spec_witness :
  filteredPapers (clearAllFilters (toggleTagFilter "nlp" deep_learning_state)) =
  allPapers (toggleTagFilter "nlp" deep_learning_state).
Proof.
  assert (Hempty : trim (toLowerCase "") = "") by reflexivity.
  destruct (clearAllFilters_spec (toggleTagFilter "nlp" deep_learning_state)
              Hempty) as (_ & _ & Hoff & _).
  apply Hoff. reflexivity.
Defined.

Lemma loadPapersData_frame_witness :
  let fetch := λ _ : string, Parsed JsonObject in
  allPapers (loadPapersData fetch deep_learning_state).1 =
  allPapers deep_learning_state ∧
  console (loadPapersData fetch deep_learning_state).1 =
  console deep_learning_state ++ [ConsoleLog "Total papers loaded:" 2].
Proof.
  intros fetch.
  destruct (loadPapersData_frame fetch deep_learning_state) as (_ & _ & _ & Hshape).
  by apply (Hshape JsonObject JsonObject).
Defined.

Lemma highlightSearchTerm_spec_witness :
  let s := set_searchQuery "deep" initialState in
  marked "deep" "Deep nets" (highlightSearchTerm "Deep nets" s) ∧
  highlightSearchTerm "Shallow nets" s = "Shallow nets".
Proof.
  intros s.
  destruct (highlightSearchTerm_spec "Deep nets" s) as (_ & _ & Hdeep).
  destruct (highlightSearchTerm_spec "Shallow nets" s) as (_ & _ & Hshallow).
  split.
  - by apply Hdeep.
  - apply Hshallow; [done|]. rewrite <- includesIgnoreCase_spec.
    by vm_compute.
Defined.

Lemma toggleShowOnlyWithCode_spec_witness :
  sublist (filteredPapers (toggleShowOnlyWithCode deep_learning_state))
    (filteredPapers deep_learning_state).
Proof.
  destruct (toggleShowOnlyWithCode_spec deep_learning_state) as (_ & Hoff & _).
  by apply Hoff.
Defined.
